(** * A shallow embedding of [stego_cli.cpp] (cyber-buddies)

    The command line engine appends a fixed-layout [StegoHeader] and a
    payload to a host file, and recovers the payload with a backward scan
    for a checksum-valid header.  This file models the engine of
    [src/stego_cli.cpp]:
    - bytes ([unsigned char]) are [Byte.byte]; [std::string] paths are
      [String.string]; [size_t] and the fixed-width integers are [Z] with
      their wrap-around written out;
    - [memcpy] of the header struct is its little-endian object
      representation under the usual C ABI layout rules, padding bytes
      included (their content is indeterminate, so it is a parameter);
    - [double] arithmetic is IEEE binary64, modelled with the Standard
      Library's [SpecFloat] (the specification of primitive floats);
    - exceptions are the constructors of [error], threaded through a small
      error monad; console output is not modelled;
    - every [vector] range constructor is checked: a range outside the
      buffer yields [IteratorOutOfRange] instead of reading. *)

From Stdlib Require Import ZArith Lia List Bool String Ascii.
From Stdlib Require Import Strings.Byte.
From Stdlib Require Import Floats.SpecFloat.
Import ListNotations.
Open Scope Z_scope.

(** ** Bytes and little-endian integers *)

(** The value of an [unsigned char]. *)
Definition u8 (b : byte) : Z := Z.of_N (Byte.to_N b).

(** The low 8 bits of an integer as a byte (a store into [unsigned char]). *)
Definition byte_of_Z (z : Z) : byte :=
  match Byte.of_N (Z.to_N (z mod 256)) with
  | Some b => b
  | None => Byte.x00
  end.

(** Object representation of an [n]-byte unsigned integer on a
    little-endian machine. *)
Fixpoint le_bytes (n : nat) (v : Z) : list byte :=
  match n with
  | O => []
  | S k => byte_of_Z v :: le_bytes k (v / 256)
  end.

(** Reading an unsigned integer back from its object representation. *)
Fixpoint le_value (l : list byte) : Z :=
  match l with
  | [] => 0
  | b :: r => u8 b + 256 * le_value r
  end.

(** [n] bytes of a buffer starting at index [a]. *)
Definition sub (l : list byte) (a n : nat) : list byte := firstn n (skipn a l).

(** ** Configuration constants (namespace [Config]) *)

Definition MIN_HOST_SIZE : Z := 10240.
Definition MAGIC_SIGNATURE : Z := 0x5354454E.
Definition VERSION : Z := 0x0001.
Definition MAX_FILENAME_LENGTH : nat := 256.

(** ** The header struct and its layout *)

Record StegoHeader := mkStegoHeader {
  magic : Z;            (* uint32_t *)
  version : Z;          (* uint16_t *)
  hiddenFileSize : Z;   (* uint32_t *)
  filenameLength : Z;   (* uint16_t *)
  filename : list byte; (* char[MAX_FILENAME_LENGTH] *)
  checksum : Z          (* uint32_t *)
}.

(** Struct layout by the C ABI rule: each member is placed at the next
    offset aligned to its alignment, and the size is rounded up to the
    largest member alignment.  Members are (size, alignment). *)
Definition align_up (off al : Z) : Z := ((off + al - 1) / al) * al.

Fixpoint member_offsets (off : Z) (ms : list (Z * Z)) : list Z :=
  match ms with
  | [] => []
  | (sz, al) :: r => align_up off al :: member_offsets (align_up off al + sz) r
  end.

Fixpoint members_end (off : Z) (ms : list (Z * Z)) : Z :=
  match ms with
  | [] => off
  | (sz, al) :: r => members_end (align_up off al + sz) r
  end.

Definition struct_sizeof (ms : list (Z * Z)) : Z :=
  align_up (members_end 0 ms) (fold_right Z.max 1 (map snd ms)).

(** [magic], [version], [hiddenFileSize], [filenameLength], [filename],
    [checksum]: sizes and alignments of [uint32_t], [uint16_t] and [char]. *)
Definition StegoHeader_members : list (Z * Z) :=
  [(4, 4); (2, 2); (4, 4); (2, 2); (Z.of_nat MAX_FILENAME_LENGTH, 1); (4, 4)].

(** [sizeof(StegoHeader)]. *)
Definition sizeof_StegoHeader : Z := struct_sizeof StegoHeader_members.

(** The [char filename[256]] array of a header, as stored. *)
Definition filename_array (name : list byte) : list byte :=
  firstn MAX_FILENAME_LENGTH (name ++ repeat Byte.x00 MAX_FILENAME_LENGTH).

(** [serializeHeader]: [memcpy] of the struct into a buffer of
    [sizeof(StegoHeader)] bytes.  The member offsets are those of
    [StegoHeader_members] (0, 4, 8, 12, 14, 272); the padding bytes at
    offsets 6, 7, 270 and 271 are indeterminate and read from [pad]. *)
Definition serializeHeader (pad : Z -> byte) (h : StegoHeader) : list byte :=
  le_bytes 4 (magic h) ++ le_bytes 2 (version h) ++ [pad 6; pad 7]
  ++ le_bytes 4 (hiddenFileSize h) ++ le_bytes 2 (filenameLength h)
  ++ filename_array (filename h) ++ [pad 270; pad 271]
  ++ le_bytes 4 (checksum h).

(** ** Errors (the exception classes) and the error monad *)

Inductive error :=
  | FileAccess            (* FileAccessException *)
  | SizeHostTooSmall      (* "Host file too small. Minimum size: ..." *)
  | SizeNoRoom            (* "Host file too small to hide any data" *)
  | SizeExceeds           (* "The file to hide exceeds the allowable size" *)
  | InvalidHeaderSize     (* "Invalid header size" *)
  | FileTooSmall          (* "File too small to contain hidden data" *)
  | NoHiddenData          (* "No hidden data found in file" *)
  | CorruptedHeader       (* "Invalid or corrupted header" *)
  | SizeMismatch          (* "Corrupted file: size mismatch" *)
  | FilenameUnterminated  (* header.filename has no NUL: read past the array *)
  | IteratorOutOfRange.   (* a vector range outside the buffer *)

Inductive result (A : Type) :=
  | Ok (a : A)
  | Err (e : error).
Arguments Ok {A} a.
Arguments Err {A} e.

Definition bind {A B} (m : result A) (k : A -> result B) : result B :=
  match m with
  | Ok a => k a
  | Err e => Err e
  end.

Notation "x <- m ;; k" := (bind m (fun x => k))
  (at level 61, m at next level, right associativity).

Definition throw {A} (e : error) : result A := Err e.

(** [deserializeHeader]: [memcpy] from a buffer into a fresh struct. *)
Definition deserializeHeader (buffer : list byte) : result StegoHeader :=
  if Z.of_nat (List.length buffer) <? sizeof_StegoHeader then throw InvalidHeaderSize
  else Ok (mkStegoHeader
             (le_value (sub buffer 0 4))
             (le_value (sub buffer 4 2))
             (le_value (sub buffer 8 4))
             (le_value (sub buffer 12 2))
             (sub buffer 14 MAX_FILENAME_LENGTH)
             (le_value (sub buffer 272 4))).

(** [StegoHeader::calculateChecksum]: [uint32_t] arithmetic; the loop runs
    while [i < filenameLength && i < MAX_FILENAME_LENGTH]. *)
Definition calculateChecksum (h : StegoHeader) : Z :=
  let sum := (magic h + version h + hiddenFileSize h + filenameLength h) mod 2 ^ 32 in
  fold_left (fun s b => (s + u8 b) mod 2 ^ 32)
    (firstn (Nat.min (Z.to_nat (filenameLength h)) MAX_FILENAME_LENGTH) (filename h))
    sum.

(** [StegoHeader::validate]. *)
Definition validate (h : StegoHeader) : bool :=
  (magic h =? MAGIC_SIGNATURE) && (checksum h =? calculateChecksum h).

(** ** String utilities (namespace [Utils]) *)

Definition is_path_sep (c : ascii) : bool := (c =? "/")%char || (c =? "\")%char.
Definition is_dot (c : ascii) : bool := (c =? ".")%char.

(** [std::string::find_last_of]: index of the last character satisfying
    [p], [None] for [string::npos]. *)
Fixpoint find_last_of_from (p : ascii -> bool) (s : string) (i : nat)
    (acc : option nat) : option nat :=
  match s with
  | EmptyString => acc
  | String c r => find_last_of_from p r (S i) (if p c then Some i else acc)
  end.

Definition find_last_of (p : ascii -> bool) (s : string) : option nat :=
  find_last_of_from p s 0 None.

(** [s.substr(pos)]. *)
Definition substr_from (s : string) (pos : nat) : string :=
  substring pos (String.length s - pos) s.

(** [Utils::extractFilename]. *)
Definition extractFilename (fullPath : string) : string :=
  match find_last_of is_path_sep fullPath with
  | None => fullPath
  | Some pos => substr_from fullPath (S pos)
  end.

(** [::tolower] in the "C" locale. *)
Definition tolower (c : ascii) : ascii :=
  let n := nat_of_ascii c in
  if (65 <=? n)%nat && (n <=? 90)%nat then ascii_of_nat (n + 32) else c.

Fixpoint string_map (f : ascii -> ascii) (s : string) : string :=
  match s with
  | EmptyString => EmptyString
  | String c r => String (f c) (string_map f r)
  end.

(** [Utils::getExtension]. *)
Definition getExtension (filename : string) : string :=
  match find_last_of is_dot filename with
  | None => EmptyString
  | Some pos => string_map tolower (substr_from filename pos)
  end.

(** The [hasExtension] test of [Utils::generateOutputFilename]. *)
Definition hasExtension (path : string) : bool :=
  match find_last_of is_dot path with
  | None => false
  | Some outputDotPos =>
      match find_last_of is_path_sep path with
      | None => true
      | Some outputSlashPos => (outputSlashPos <? outputDotPos)%nat
      end
  end.

(** [Utils::generateOutputFilename]. *)
Definition generateOutputFilename (userProvidedPath originalFilename : string) : string :=
  if String.eqb userProvidedPath EmptyString
  then String.append "extracted_" originalFilename
  else if hasExtension userProvidedPath then userProvidedPath
  else String.append userProvidedPath (getExtension originalFilename).

(** ** Capacity policy ([FileValidator::validateAndCalculateMaxSize]) *)

(** IEEE binary64. *)
Definition prec : Z := 53.
Definition emax : Z := 1024.

(** The least exponent of a binary64 subnormal ([-1074]). *)
Definition emin64 : Z := emin prec emax.

(** Conversion of an integer to [double] (round to nearest even). *)
Definition double_of_Z (n : Z) : spec_float := binary_normalize prec emax n 0 false.

(** The literal [0.85]: the binary64 number nearest to 85/100, which is the
    correctly rounded quotient of 85 by 100. *)
Definition MAX_HIDDEN_SIZE_RATIO : spec_float :=
  SFdiv prec emax (double_of_Z 85) (double_of_Z 100).

(** [static_cast<size_t>] of a [double]: truncation toward zero.  Negative,
    infinite and NaN arguments are undefined behaviour in C++ and map to 0
    here; they do not arise below. *)
Definition size_t_of_double (x : spec_float) : Z :=
  match x with
  | S754_finite false m e =>
      if 0 <=? e then Z.pos m * 2 ^ e else Z.shiftr (Z.pos m) (- e)
  | _ => 0
  end.

(** [static_cast<size_t>(hostSize * Config::MAX_HIDDEN_SIZE_RATIO)]. *)
Definition maxHiddenBase (hostSize : Z) : Z :=
  size_t_of_double (SFmul prec emax (double_of_Z hostSize) MAX_HIDDEN_SIZE_RATIO).

Definition validateAndCalculateMaxSize (hiddenSize hostSize : Z) : result Z :=
  if hostSize <? MIN_HOST_SIZE then throw SizeHostTooSmall
  else
    let maxHiddenSize := maxHiddenBase hostSize in
    let headerSize := sizeof_StegoHeader in
    if maxHiddenSize <? headerSize then throw SizeNoRoom
    else
      let maxHiddenSize := maxHiddenSize - headerSize in
      if hiddenSize >? maxHiddenSize then throw SizeExceeds
      else Ok maxHiddenSize.

(** ** Building a header ([UniversalSteganography::createHeader]) *)

(** [strncpy(dest, src, n)] on the first [n] bytes of [dest]: [src] is the
    content of a C string (its terminating NUL is the end of the list);
    copying stops at the first NUL and the rest of the [n] bytes is filled
    with NULs. *)
Fixpoint strncpy_bytes (src : list byte) (n : nat) : list byte :=
  match n with
  | O => []
  | S k =>
      match src with
      | [] => Byte.x00 :: strncpy_bytes [] k
      | b :: r =>
          if Byte.eqb b Byte.x00 then Byte.x00 :: strncpy_bytes [] k
          else b :: strncpy_bytes r k
      end
  end.

Definition strncpy (dest src : list byte) (n : nat) : list byte :=
  strncpy_bytes src n ++ skipn n dest.

(** [a[i] = v] on an in-range index. *)
Definition list_set (l : list byte) (i : nat) (v : byte) : list byte :=
  firstn i l ++ v :: skipn (S i) l.

(** The header built by [createHeader(hiddenFilename, hiddenSize)]: the
    constructor sets [magic], [version] and zero-fills [filename]. *)
Definition createHeader (hiddenFilename : string) (hiddenSize : Z) : StegoHeader :=
  let fname := extractFilename hiddenFilename in
  let len := Nat.min (String.length fname) (MAX_FILENAME_LENGTH - 1) in
  let arr := strncpy (repeat Byte.x00 MAX_FILENAME_LENGTH) (list_byte_of_string fname) len in
  let arr := list_set arr len Byte.x00 in
  let h := mkStegoHeader MAGIC_SIGNATURE VERSION (hiddenSize mod 2 ^ 32) (Z.of_nat len) arr 0 in
  mkStegoHeader (magic h) (version h) (hiddenFileSize h) (filenameLength h) (filename h)
    (calculateChecksum h).

(** ** Files ([Utils], [FileValidator::validateFileAccess], [FileIOManager])

    The file system at the time of the call: a path maps to the bytes of a
    readable file, or to [None]. *)
Definition filesystem := string -> option (list byte).

Definition fileExists (fs : filesystem) (p : string) : bool :=
  match fs p with Some _ => true | None => false end.

(** [Utils::getFileSize]: [st_size], or 0 when [stat] fails. *)
Definition getFileSize (fs : filesystem) (p : string) : Z :=
  match fs p with Some d => Z.of_nat (List.length d) | None => 0 end.

Definition validateFileAccess (fs : filesystem) (p : string) : result unit :=
  if String.eqb p EmptyString then throw FileAccess
  else if fileExists fs p then Ok tt else throw FileAccess.

Definition readFile (fs : filesystem) (p : string) : result (list byte) :=
  match fs p with Some d => Ok d | None => throw FileAccess end.

(** A [vector] range [data.begin() + a .. data.begin() + b]. *)
Definition vec_range (data : list byte) (a b : Z) : result (list byte) :=
  if (0 <=? a) && (a <=? b) && (b <=? Z.of_nat (List.length data))
  then Ok (sub data (Z.to_nat a) (Z.to_nat (b - a)))
  else throw IteratorOutOfRange.

(** ** Embedding ([UniversalSteganography::hideFile])

    Returns the final output path and the bytes written to it ([writeFile]
    is not modelled further). *)
Definition hideFile (fs : filesystem) (pad : Z -> byte)
    (hiddenFilePath hostFilePath outputFilePath : string) : result (string * list byte) :=
  _ <- validateFileAccess fs hiddenFilePath ;;
  _ <- validateFileAccess fs hostFilePath ;;
  let hiddenSize := getFileSize fs hiddenFilePath in
  let hostSize := getFileSize fs hostFilePath in
  _ <- validateAndCalculateMaxSize hiddenSize hostSize ;;
  hostData <- readFile fs hostFilePath ;;
  hiddenData <- readFile fs hiddenFilePath ;;
  let header := createHeader hiddenFilePath hiddenSize in
  let headerData := serializeHeader pad header in
  let output := hostData ++ headerData ++ hiddenData in
  let finalOutputPath :=
    generateOutputFilename outputFilePath (extractFilename hostFilePath) in
  Ok (finalOutputPath, output).

(** ** Extraction ([UniversalSteganography::extractFile]) *)

(** The loop [for (size_t i = data.size() - sizeof(StegoHeader); i > 0; i--)],
    entered with [i]: the offset of the first window accepted, if any. *)
Fixpoint scan (data : list byte) (i : nat) : result (option Z) :=
  match i with
  | O => Ok None
  | S k =>
      potentialHeader <- vec_range data (Z.of_nat i) (Z.of_nat i + sizeof_StegoHeader) ;;
      header <- deserializeHeader potentialHeader ;;
      if (magic header =? MAGIC_SIGNATURE) && validate header
      then Ok (Some (Z.of_nat i))
      else scan data k
  end.

Fixpoint take_until_nul (l : list byte) : list byte :=
  match l with
  | [] => []
  | b :: r => if Byte.eqb b Byte.x00 then [] else b :: take_until_nul r
  end.

(** The [std::string] built from [header.filename]; without a NUL in the
    array, [strlen] would read past it. *)
Definition c_string (arr : list byte) : result string :=
  if existsb (Byte.eqb Byte.x00) arr
  then Ok (string_of_list_byte (take_until_nul arr))
  else throw FilenameUnterminated.

(** Steps 3 and 4 of [extractFile] on the bytes [data] of the stego file:
    the header found, the output file name and the bytes written to it. *)
Definition extractData (data : list byte) (outputFilePath : string)
    : result (StegoHeader * string * list byte) :=
  let fileSize := Z.of_nat (List.length data) in
  if fileSize <? sizeof_StegoHeader then throw FileTooSmall
  else
    found <- scan data (Z.to_nat (fileSize - sizeof_StegoHeader)) ;;
    match found with
    | None => throw NoHiddenData
    | Some headerOffset =>
        headerData <- vec_range data headerOffset (headerOffset + sizeof_StegoHeader) ;;
        header <- deserializeHeader headerData ;;
        if negb (validate header) then throw CorruptedHeader
        else
          let hiddenDataOffset := headerOffset + sizeof_StegoHeader in
          if (hiddenDataOffset + hiddenFileSize header) mod 2 ^ 64 >? fileSize
          then throw SizeMismatch
          else
            hiddenData <- vec_range data hiddenDataOffset
                            (hiddenDataOffset + hiddenFileSize header) ;;
            name <- c_string (filename header) ;;
            let extractedFilename := generateOutputFilename outputFilePath name in
            Ok (header, extractedFilename, hiddenData)
    end.

Definition extractFile (fs : filesystem) (hostFilePath outputFilePath : string)
    : result (StegoHeader * string * list byte) :=
  _ <- validateFileAccess fs hostFilePath ;;
  data <- readFile fs hostFilePath ;;
  extractData data outputFilePath.

(** ** Writing and the command line ([FileIOManager::writeFile], [main])

    [writable p] tells whether the output file [p] can be opened for
    writing; the result is the file system after the write, in which [p]
    holds exactly [data].  A write failing after the file was opened
    ("Error writing to file") is not modelled: a failed write changes
    nothing here. *)
Definition writeFile (fs : filesystem) (writable : string -> bool)
    (filename : string) (data : list byte) : result filesystem :=
  if writable filename
  then Ok (fun q => if String.eqb q filename then Some data else fs q)
  else throw FileAccess.

(** The whole member functions [UniversalSteganography::hideFile] and
    [UniversalSteganography::extractFile]: the models [hideFile] and
    [extractFile] above stop just before their final
    [FileIOManager::writeFile] call, made here. *)
Definition hideFileWrite (fs : filesystem) (writable : string -> bool) (pad : Z -> byte)
    (hiddenFilePath hostFilePath outputFilePath : string) : result filesystem :=
  w <- hideFile fs pad hiddenFilePath hostFilePath outputFilePath ;;
  writeFile fs writable (fst w) (snd w).

Definition extractFileWrite (fs : filesystem) (writable : string -> bool)
    (hostFilePath outputFilePath : string) : result filesystem :=
  r <- extractFile fs hostFilePath outputFilePath ;;
  let '(_, extractedFilename, hiddenData) := r in
  writeFile fs writable extractedFilename hiddenData.

(** [main argv]: the exit status and the file system afterwards.
    [UniversalSteganography stego(secretFile, coverImage, outputImage)]
    sets the hidden, host and output paths in this order; [decode] passes
    [""] as hidden path.  Every exception is caught and gives status 1. *)
Definition main (fs : filesystem) (writable : string -> bool) (pad : Z -> byte)
    (argv : list string) : Z * filesystem :=
  let run (r : result filesystem) :=
    match r with Ok fs' => (0, fs') | Err _ => (1, fs) end in
  match argv with
  | _ :: mode :: args =>
      if String.eqb mode "encode" then
        match args with
        | [coverImage; secretFile; outputImage] =>
            run (hideFileWrite fs writable pad secretFile coverImage outputImage)
        | _ => (1, fs)
        end
      else if String.eqb mode "decode" then
        match args with
        | [stegoImage; outputFile] =>
            run (extractFileWrite fs writable stegoImage outputFile)
        | _ => (1, fs)
        end
      else (1, fs)
  | _ => (1, fs)
  end.

(** ** Auxiliary definitions for the proofs *)

(** The unsigned sum of bytes. *)
Definition sum_u8 (l : list byte) : Z := fold_right (fun b s => u8 b + s) 0 l.

(** The test the loop applies to the window at index [i]. *)
Definition window_ok (data : list byte) (i : nat) : bool :=
  match deserializeHeader (sub data i 276) with
  | Ok header => (magic header =? MAGIC_SIGNATURE) && validate header
  | Err _ => false
  end.

(** The result of the scan, as far as extraction is concerned. *)
Inductive scan_outcome (data : list byte) (n : nat) : Prop :=
  | scan_none :
      scan data n = Ok None ->
      (forall j, (1 <= j <= n)%nat -> window_ok data j = false) ->
      scan_outcome data n
  | scan_some i :
      scan data n = Ok (Some (Z.of_nat i)) -> (1 <= i <= n)%nat ->
      window_ok data i = true ->
      (forall j, (i < j <= n)%nat -> window_ok data j = false) ->
      scan_outcome data n.

(** All windows after index [off], up to the last one the scan probes, are
    rejected by the scan's test. *)
Definition tail_windows_rejected (data : list byte) (off : nat) : bool :=
  forallb (fun j => negb (window_ok data j))
    (seq (S off) (List.length data - 276 - off)).

(** Members of a header that fit their C types. *)
Definition header_in_range (h : StegoHeader) : Prop :=
  0 <= magic h < 2 ^ 32 /\ 0 <= version h < 2 ^ 16 /\
  0 <= hiddenFileSize h < 2 ^ 32 /\ 0 <= filenameLength h < 2 ^ 16 /\
  0 <= checksum h < 2 ^ 32.

(** ** Example inputs *)

(** Padding bytes all zero. *)
Definition pad0 : Z -> byte := fun _ => Byte.x00.

Definition zeros (n : nat) : list byte := repeat Byte.x00 n.

(** A file system holding the listed files. *)
Definition example_fs (files : list (string * list byte)) : filesystem :=
  fun p => match find (fun f => String.eqb (fst f) p) files with
           | Some (_, d) => Some d
           | None => None
           end.

(** The spec's example: a 5-byte payload and a 20000-byte host. *)
Definition fs_hello : filesystem :=
  example_fs [("cover.bin"%string, zeros 20000); ("dir/hello.txt"%string, list_byte_of_string "hello")].

Definition hello_out : list byte :=
  zeros 20000 ++ serializeHeader pad0 (createHeader "dir/hello.txt" 5)
  ++ list_byte_of_string "hello".

(** A payload that is itself a serialized, valid header. *)
Definition forged_payload : list byte := serializeHeader pad0 (createHeader "a" 0).

Definition fs_forged : filesystem :=
  example_fs [("cover.bin"%string, zeros 10240); ("secret.bin"%string, forged_payload)].

Definition forged_out : list byte :=
  zeros 10240 ++ serializeHeader pad0 (createHeader "secret.bin" 276) ++ forged_payload.

(** A host whose extension is in upper case. *)
Definition fs_upper : filesystem :=
  example_fs [("pic.PNG"%string, zeros 10240); ("s.txt"%string, list_byte_of_string "hi")].

Definition upper_out : list byte :=
  zeros 10240 ++ serializeHeader pad0 (createHeader "s.txt" 2) ++ list_byte_of_string "hi".

(** A 276-byte buffer holding the bytes 0, 1, ..., 255, 0, 1, ..., 19. *)
Definition counting_window : list byte := map (fun n => byte_of_Z (Z.of_nat n)) (seq 0 276).

(** * Lemmas on the byte codec *)


Lemma u8_range b : 0 <= u8 b < 256.
Proof.
  unfold u8. pose proof (Byte.to_N_bounded b). lia.
Qed.

Lemma u8_byte_of_Z z : u8 (byte_of_Z z) = z mod 256.
Proof.
  unfold u8, byte_of_Z.
  pose proof (Z.mod_pos_bound z 256 ltac:(lia)) as Hb.
  destruct (Byte.of_N (Z.to_N (z mod 256))) as [b|] eqn:E.
  - apply Byte.to_of_N in E. rewrite E. lia.
  - apply Byte.of_N_None_iff in E. lia.
Qed.

Lemma le_bytes_length n v : List.length (le_bytes n v) = n.
Proof.
  revert v; induction n; intros v; simpl; auto.
Qed.

Lemma le_value_le_bytes n v :
  0 <= v < 2 ^ (8 * Z.of_nat n) -> le_value (le_bytes n v) = v.
Proof.
  revert v; induction n as [|n IH]; intros v Hv.
  - simpl in Hv. simpl. lia.
  - cbn [le_bytes le_value]. rewrite u8_byte_of_Z. rewrite IH.
    + pose proof (Z.div_mod v 256 ltac:(lia)). lia.
    + replace (8 * Z.of_nat (S n)) with (8 + 8 * Z.of_nat n) in Hv by lia.
      rewrite Z.pow_add_r in Hv by lia.
      split; [apply Z.div_pos; lia|].
      apply Z.div_lt_upper_bound; lia.
Qed.

Lemma le_value_range l : 0 <= le_value l < 2 ^ (8 * Z.of_nat (List.length l)).
Proof.
  induction l as [|b l IH]; cbn [le_value List.length].
  - lia.
  - pose proof (u8_range b).
    replace (8 * Z.of_nat (S (List.length l))) with (8 + 8 * Z.of_nat (List.length l)) by lia.
    rewrite Z.pow_add_r by lia. lia.
Qed.

Lemma sum_u8_nonneg l : 0 <= sum_u8 l.
Proof.
  induction l; simpl; [lia|]. pose proof (u8_range a); lia.
Qed.

(** The [uint32_t] accumulation of the checksum loop is the sum modulo 2^32. *)
Lemma fold_checksum l a :
  fold_left (fun s b => (s + u8 b) mod 2 ^ 32) l (a mod 2 ^ 32)
  = (a + sum_u8 l) mod 2 ^ 32.
Proof.
  revert a; induction l as [|b l IH]; intros a; simpl.
  - now rewrite Z.add_0_r.
  - rewrite Z.add_mod_idemp_l by lia.
    rewrite IH. f_equal. lia.
Qed.

Lemma filename_array_length name : List.length (filename_array name) = MAX_FILENAME_LENGTH.
Proof.
  unfold filename_array. rewrite length_firstn, length_app, repeat_length. lia.
Qed.

Lemma sub_length l a n : (a + n <= List.length l)%nat -> List.length (sub l a n) = n.
Proof.
  intros H. unfold sub. rewrite length_firstn, length_skipn. lia.
Qed.

Lemma sub_app_l l1 l2 a n : (a + n <= List.length l1)%nat -> sub (l1 ++ l2) a n = sub l1 a n.
Proof.
  intros H. unfold sub. rewrite skipn_app.
  replace (a - List.length l1)%nat with O by lia. simpl.
  rewrite firstn_app, length_skipn.
  replace (n - (List.length l1 - a))%nat with O by lia. simpl. apply app_nil_r.
Qed.

Lemma sub_app_r l1 l2 a n : (List.length l1 <= a)%nat -> sub (l1 ++ l2) a n = sub l2 (a - List.length l1) n.
Proof.
  intros H. unfold sub. rewrite skipn_app.
  rewrite (skipn_all2 l1 H). reflexivity.
Qed.

Lemma sub_all l : sub l 0 (List.length l) = l.
Proof. unfold sub. simpl. apply firstn_all. Qed.

Lemma sub_exact l n : List.length l = n -> sub l 0 n = l.
Proof. intros <-. apply sub_all. Qed.

Ltac len_tac :=
  repeat rewrite ?length_app, ?le_bytes_length, ?filename_array_length;
  cbn [List.length]; unfold MAX_FILENAME_LENGTH in *; lia.

(** Selecting a member of a serialized header: peel the concatenation. *)
Ltac sub_field :=
  repeat (first [ rewrite sub_app_r by len_tac | rewrite sub_app_l by len_tac ]);
  rewrite ?le_bytes_length, ?filename_array_length;
  rewrite sub_exact by len_tac.

Lemma serializeHeader_length pad h :
  Z.of_nat (List.length (serializeHeader pad h)) = sizeof_StegoHeader.
Proof.
  unfold serializeHeader. rewrite !length_app, !le_bytes_length, filename_array_length.
  reflexivity.
Qed.

Lemma deserialize_serialize pad h :
  header_in_range h ->
  deserializeHeader (serializeHeader pad h)
  = Ok (mkStegoHeader (magic h) (version h) (hiddenFileSize h) (filenameLength h)
          (filename_array (filename h)) (checksum h)).
Proof.
  intros (Hm & Hv & Hs & Hl & Hc).
  unfold deserializeHeader. rewrite serializeHeader_length, Z.ltb_irrefl.
  unfold serializeHeader. f_equal. f_equal.
  - sub_field. apply le_value_le_bytes. exact Hm.
  - sub_field. apply le_value_le_bytes. exact Hv.
  - sub_field. apply le_value_le_bytes. exact Hs.
  - sub_field. apply le_value_le_bytes. exact Hl.
  - sub_field. reflexivity.
  - sub_field. apply le_value_le_bytes. exact Hc.
Qed.

(** * The backward scan *)

Lemma sizeof_StegoHeader_eq : sizeof_StegoHeader = 276.
Proof. reflexivity. Qed.


Lemma vec_range_in data a b :
  0 <= a <= b -> b <= Z.of_nat (List.length data) ->
  vec_range data a b = Ok (sub data (Z.to_nat a) (Z.to_nat (b - a))).
Proof.
  intros H1 H2. unfold vec_range.
  replace ((0 <=? a) && (a <=? b) && (b <=? Z.of_nat (List.length data))) with true; [reflexivity|].
  symmetry. rewrite !andb_true_iff, !Z.leb_le. lia.
Qed.

Lemma deserialize_window data i :
  (i + 276 <= List.length data)%nat ->
  exists h, deserializeHeader (sub data i 276) = Ok h.
Proof.
  intros H. unfold deserializeHeader.
  rewrite sub_length by exact H. rewrite sizeof_StegoHeader_eq. simpl. eauto.
Qed.

Lemma scan_step data k :
  (S k + 276 <= List.length data)%nat ->
  scan data (S k)
  = if window_ok data (S k) then Ok (Some (Z.of_nat (S k))) else scan data k.
Proof.
  intros H. cbn [scan]. rewrite sizeof_StegoHeader_eq.
  rewrite vec_range_in by lia.
  replace (Z.to_nat (Z.of_nat (S k))) with (S k) by lia.
  replace (Z.to_nat (Z.of_nat (S k) + 276 - Z.of_nat (S k))) with 276%nat by lia.
  unfold window_ok. simpl bind.
  destruct (deserialize_window data (S k) H) as [h Hh]. rewrite Hh. reflexivity.
Qed.

(** What the loop computes: the largest accepted index in [1, n], if any. *)
Lemma scan_spec data n :
  (n + 276 <= List.length data)%nat ->
  (scan data n = Ok None /\ forall j, (1 <= j <= n)%nat -> window_ok data j = false)
  \/ (exists i, scan data n = Ok (Some (Z.of_nat i)) /\ (1 <= i <= n)%nat
        /\ window_ok data i = true
        /\ forall j, (i < j <= n)%nat -> window_ok data j = false).
Proof.
  induction n as [|k IH]; intros H.
  - left. split; [reflexivity|]. intros j Hj. lia.
  - rewrite scan_step by exact H.
    destruct (window_ok data (S k)) eqn:E.
    + right. exists (S k). repeat split; auto; lia.
    + destruct (IH ltac:(lia)) as [[Hs Hall] | (i & Hs & Hi & Hok & Hmax)].
      * left. split; [exact Hs|]. intros j Hj.
        destruct (Nat.eq_dec j (S k)); [subst; exact E|]. apply Hall; lia.
      * right. exists i. split; [exact Hs|]. split; [lia|]. split; [exact Hok|].
        intros j Hj. destruct (Nat.eq_dec j (S k)); [subst; exact E|]. apply Hmax; lia.
Qed.

Lemma extractData_unfold data out :
  (276 <= List.length data)%nat ->
  extractData data out =
  (found <- scan data (List.length data - 276) ;;
   match found with
   | None => throw NoHiddenData
   | Some headerOffset =>
       headerData <- vec_range data headerOffset (headerOffset + 276) ;;
       header <- deserializeHeader headerData ;;
       if negb (validate header) then throw CorruptedHeader
       else
         let hiddenDataOffset := headerOffset + 276 in
         if (hiddenDataOffset + hiddenFileSize header) mod 2 ^ 64
              >? Z.of_nat (List.length data)
         then throw SizeMismatch
         else
           hiddenData <- vec_range data hiddenDataOffset
                           (hiddenDataOffset + hiddenFileSize header) ;;
           name <- c_string (filename header) ;;
           Ok (header, generateOutputFilename out name, hiddenData)
   end).
Proof.
  intros H. unfold extractData. rewrite sizeof_StegoHeader_eq.
  replace (Z.of_nat (List.length data) <? 276) with false by (symmetry; apply Z.ltb_ge; lia).
  replace (Z.to_nat (Z.of_nat (List.length data) - 276)) with (List.length data - 276)%nat by lia.
  reflexivity.
Qed.

Lemma window_ok_validate data i h :
  deserializeHeader (sub data i 276) = Ok h ->
  window_ok data i = validate h.
Proof.
  intros E. unfold window_ok. rewrite E. unfold validate.
  destruct (magic h =? MAGIC_SIGNATURE); reflexivity.
Qed.

(** Extraction after the scan accepted the window at [i]. *)
Lemma extractData_found data out i :
  (276 <= List.length data)%nat ->
  scan data (List.length data - 276) = Ok (Some (Z.of_nat i)) ->
  (i + 276 <= List.length data)%nat ->
  window_ok data i = true ->
  exists h, deserializeHeader (sub data i 276) = Ok h /\ validate h = true /\
    extractData data out =
    (if (Z.of_nat i + 276 + hiddenFileSize h) mod 2 ^ 64 >? Z.of_nat (List.length data)
     then throw SizeMismatch
     else
       hiddenData <- vec_range data (Z.of_nat i + 276) (Z.of_nat i + 276 + hiddenFileSize h) ;;
       name <- c_string (filename h) ;;
       Ok (h, generateOutputFilename out name, hiddenData)).
Proof.
  intros Hlen Hs Hi Hok.
  destruct (deserialize_window data i Hi) as [h Hh].
  exists h. split; [exact Hh|].
  rewrite (window_ok_validate data i h Hh) in Hok. split; [exact Hok|].
  rewrite extractData_unfold by exact Hlen. rewrite Hs. cbn [bind].
  rewrite vec_range_in by lia.
  replace (Z.to_nat (Z.of_nat i)) with i by lia.
  replace (Z.to_nat (Z.of_nat i + 276 - Z.of_nat i)) with 276%nat by lia.
  cbn [bind]. rewrite Hh. cbn [bind]. rewrite Hok. reflexivity.
Qed.

(** Every scan accepts a window inside the buffer. *)
Lemma scan_in_range data i :
  (276 <= List.length data)%nat ->
  scan data (List.length data - 276) = Ok (Some (Z.of_nat i)) ->
  (1 <= i /\ i + 276 <= List.length data)%nat /\ window_ok data i = true.
Proof.
  intros Hlen Hs.
  destruct (scan_spec data (List.length data - 276) ltac:(lia))
    as [[Hs' _] | (i' & Hs' & Hi' & Hok' & _)]; rewrite Hs' in Hs; [discriminate|].
  injection Hs as Hs. apply Nat2Z.inj in Hs. subst i'. split; [lia | exact Hok'].
Qed.


Lemma scan_outcome_holds data n :
  (n + 276 <= List.length data)%nat -> scan_outcome data n.
Proof.
  intros H. destruct (scan_spec data n H) as [[A B] | (i & A & B & C & D)].
  - now apply scan_none.
  - now apply (scan_some data n i).
Qed.

Ltac unfold_monad := unfold bind, throw in *.

Lemma found_errors data out i h e :
  (if (Z.of_nat i + 276 + hiddenFileSize h) mod 2 ^ 64 >? Z.of_nat (List.length data)
   then throw SizeMismatch
   else
     hiddenData <- vec_range data (Z.of_nat i + 276) (Z.of_nat i + 276 + hiddenFileSize h) ;;
     name <- c_string (filename h) ;;
     Ok (h, generateOutputFilename out name, hiddenData)) = Err e ->
  e = SizeMismatch \/ e = IteratorOutOfRange \/ e = FilenameUnterminated.
Proof.
  unfold_monad. unfold vec_range, c_string.
  destruct (_ >? _); [intros E; injection E; auto|].
  destruct (_ && _); [|intros E; injection E; auto].
  destruct (existsb _ _); intros E; [discriminate|injection E; auto].
Qed.

(** ** C3 *)

(** C3: the extraction scan probes the windows starting at
    [data.size() - sizeof(StegoHeader)] down to 1 and never index 0: it
    returns the largest index in that range whose window passes the test,
    reports no index exactly when every window of the range fails it, and
    extraction then fails with "No hidden data found in file". *)
Theorem scan_backward_first_valid data out :
  (276 <= List.length data)%nat ->
  let n := (List.length data - 276)%nat in
  (forall i, scan data n = Ok (Some (Z.of_nat i)) <->
     (1 <= i <= n)%nat /\ window_ok data i = true
     /\ (forall j, (i < j <= n)%nat -> window_ok data j = false))
  /\ (scan data n = Ok None <-> forall j, (1 <= j <= n)%nat -> window_ok data j = false)
  /\ (extractData data out = Err NoHiddenData
      <-> forall j, (1 <= j <= n)%nat -> window_ok data j = false).
Proof.
  intros Hlen n.
  destruct (scan_outcome_holds data n ltac:(unfold n; lia))
    as [Hs Hall | i' Hs Hi' Hok' Hmax'].
  - split; [|split].
    + intros i. rewrite Hs. split; [discriminate|].
      intros (Hi & Hok & _). rewrite Hall in Hok by exact Hi. discriminate.
    + rewrite Hs. tauto.
    + rewrite extractData_unfold by exact Hlen. fold n. rewrite Hs. tauto.
  - split; [|split].
    + intros i. rewrite Hs. split.
      * intros E. injection E as E. apply Nat2Z.inj in E. subst i'. tauto.
      * intros (Hi & Hok & Hmax).
        destruct (Nat.lt_total i i') as [Hlt | [Heq | Hgt]].
        -- rewrite Hmax in Hok' by lia. discriminate.
        -- now subst.
        -- rewrite Hmax' in Hok by lia. discriminate.
    + rewrite Hs. split; [discriminate|]. intros Hall. rewrite Hall in Hok' by exact Hi'.
      discriminate.
    + split.
      * intros E.
        destruct (extractData_found data out i' Hlen Hs ltac:(unfold n in Hi'; lia) Hok')
          as (h & _ & _ & Ex).
        rewrite Ex in E. apply found_errors in E. intuition discriminate.
      * intros Hall. rewrite Hall in Hok' by exact Hi'. discriminate.
Qed.

Lemma strncpy_bytes_length src n : List.length (strncpy_bytes src n) = n.
Proof.
  revert src; induction n as [|n IH]; intros src; cbn [strncpy_bytes].
  - reflexivity.
  - destruct src as [|b r]; [cbn; now rewrite IH|].
    destruct (Byte.eqb b Byte.x00); cbn; now rewrite IH.
Qed.

Lemma list_set_length l i v : (i < List.length l)%nat -> List.length (list_set l i v) = List.length l.
Proof.
  intros H. unfold list_set. rewrite length_app, length_firstn. cbn [List.length].
  rewrite length_skipn. lia.
Qed.

Lemma createHeader_filename_length p s :
  List.length (filename (createHeader p s)) = MAX_FILENAME_LENGTH.
Proof.
  unfold createHeader; cbn [filename].
  set (len := Nat.min _ _).
  assert (Hlen : (len <= 255)%nat) by (unfold len, MAX_FILENAME_LENGTH; lia).
  unfold strncpy. rewrite list_set_length;
    rewrite length_app, strncpy_bytes_length, length_skipn, repeat_length;
    unfold MAX_FILENAME_LENGTH in *; lia.
Qed.

Lemma validate_iff h :
  validate h = true <-> magic h = MAGIC_SIGNATURE /\ checksum h = calculateChecksum h.
Proof.
  unfold validate. rewrite andb_true_iff, !Z.eqb_eq. tauto.
Qed.

Lemma calculateChecksum_sum h :
  List.length (filename h) = MAX_FILENAME_LENGTH ->
  calculateChecksum h =
  (magic h + version h + hiddenFileSize h + filenameLength h
   + sum_u8 (firstn (Z.to_nat (filenameLength h)) (filename h))) mod 2 ^ 32.
Proof.
  intros Hl. unfold calculateChecksum. rewrite fold_checksum.
  rewrite <- firstn_firstn. rewrite (firstn_all2 (n := MAX_FILENAME_LENGTH)) by lia.
  reflexivity.
Qed.

Lemma deserialize_filename_length w h :
  deserializeHeader w = Ok h -> List.length (filename h) = MAX_FILENAME_LENGTH.
Proof.
  unfold deserializeHeader. rewrite sizeof_StegoHeader_eq.
  destruct (Z.of_nat (List.length w) <? 276) eqn:E; [discriminate|].
  intros H. injection H as <-. cbn [filename]. apply sub_length.
  apply Z.ltb_ge in E. unfold MAX_FILENAME_LENGTH. lia.
Qed.

Lemma deserialize_size_range w h :
  deserializeHeader w = Ok h -> 0 <= hiddenFileSize h < 2 ^ 32.
Proof.
  unfold deserializeHeader. rewrite sizeof_StegoHeader_eq.
  destruct (Z.of_nat (List.length w) <? 276) eqn:E; [discriminate|].
  intros H. injection H as <-. cbn [hiddenFileSize].
  apply Z.ltb_ge in E.
  pose proof (le_value_range (sub w 8 4)) as R. rewrite sub_length in R by lia.
  exact R.
Qed.

(** ** C5 *)

(** C5: [validate] holds exactly when [magic] is the signature and the
    stored [checksum] is magic + version + hiddenFileSize + filenameLength
    + the unsigned bytes of the first [filenameLength] filename bytes,
    modulo 2^32 (for a header whose [filename] is the 256-byte array); every
    header built by [createHeader] is such a header and satisfies it. *)
Theorem validate_checksum_equation h :
  List.length (filename h) = MAX_FILENAME_LENGTH ->
  (validate h = true <->
   magic h = MAGIC_SIGNATURE /\
   checksum h = (magic h + version h + hiddenFileSize h + filenameLength h
                 + sum_u8 (firstn (Z.to_nat (filenameLength h)) (filename h))) mod 2 ^ 32)
  /\ (forall path size,
        let b := createHeader path size in
        List.length (filename b) = MAX_FILENAME_LENGTH /\ validate b = true /\
        magic b = MAGIC_SIGNATURE /\
        checksum b = (magic b + version b + hiddenFileSize b + filenameLength b
                      + sum_u8 (firstn (Z.to_nat (filenameLength b)) (filename b))) mod 2 ^ 32).
Proof.
  intros Hl. split.
  - rewrite validate_iff, calculateChecksum_sum by exact Hl. tauto.
  - intros path size b.
    assert (Hb : List.length (filename b) = MAX_FILENAME_LENGTH)
      by apply createHeader_filename_length.
    assert (Hm : magic b = MAGIC_SIGNATURE) by reflexivity.
    assert (Hc : checksum b = calculateChecksum b) by reflexivity.
    split; [exact Hb|]. split; [apply validate_iff; auto|].
    split; [exact Hm|]. rewrite <- calculateChecksum_sum by exact Hb. exact Hc.
Qed.

(** Every error extraction can raise once the file holds a header's worth
    of bytes. *)
Lemma extractData_errors data out e :
  (276 <= List.length data)%nat ->
  extractData data out = Err e ->
  e = NoHiddenData \/ e = SizeMismatch \/ e = IteratorOutOfRange \/ e = FilenameUnterminated.
Proof.
  intros Hlen E.
  destruct (scan_outcome_holds data (List.length data - 276) ltac:(lia))
    as [Hs _ | i Hs Hi Hok _].
  - rewrite extractData_unfold, Hs in E by exact Hlen. cbn in E. injection E; auto.
  - destruct (extractData_found data out i Hlen Hs ltac:(lia) Hok) as (h & _ & _ & Ex).
    rewrite Ex in E. apply found_errors in E. tauto.
Qed.

Lemma extractData_short d out :
  (List.length d < 276)%nat -> extractData d out = Err FileTooSmall.
Proof.
  intros Hd. unfold extractData. rewrite sizeof_StegoHeader_eq.
  replace (Z.of_nat (List.length d) <? 276) with true by (symmetry; apply Z.ltb_lt; lia).
  reflexivity.
Qed.

(** ** C7 *)

(** C7 (as amended): extraction fails with "File too small to contain
    hidden data" exactly when the file is shorter than
    [sizeof(StegoHeader)] = 276 bytes, whatever its content, before the
    scan. *)
Theorem extract_too_small_iff data out :
  (extractData data out = Err FileTooSmall <-> (List.length data < 276)%nat)
  /\ ((List.length data < 276)%nat ->
      forall data', List.length data' = List.length data ->
      extractData data' out = Err FileTooSmall).
Proof.
  assert (Small := fun d => extractData_short d out).
  split.
  - split; [|apply Small].
    intros E. destruct (Nat.lt_ge_cases (List.length data) 276) as [H|H]; [exact H|].
    apply extractData_errors in E; [|exact H]. intuition discriminate.
  - intros H d' Hd'. apply Small. lia.
Qed.

(** ** C8 *)

(** C8: the scan accepts a window only if its [magic] is the signature and
    its stored checksum equals the recomputed one; a window whose magic
    matches but whose checksum does not is never where extraction stops. *)
Theorem scan_requires_magic_and_checksum data :
  (276 <= List.length data)%nat ->
  (forall i, scan data (List.length data - 276) = Ok (Some (Z.of_nat i)) ->
     exists h, deserializeHeader (sub data i 276) = Ok h /\
       magic h = MAGIC_SIGNATURE /\ checksum h = calculateChecksum h)
  /\ (forall i h, deserializeHeader (sub data i 276) = Ok h ->
        magic h = MAGIC_SIGNATURE -> checksum h <> calculateChecksum h ->
        scan data (List.length data - 276) <> Ok (Some (Z.of_nat i))).
Proof.
  intros Hlen. split.
  - intros i Hs. destruct (scan_in_range data i Hlen Hs) as [Hi Hok].
    destruct (deserialize_window data i ltac:(lia)) as [h Hh].
    exists h. split; [exact Hh|].
    rewrite (window_ok_validate data i h Hh), validate_iff in Hok. exact Hok.
  - intros i h Hh Hm Hc Hs. destruct (scan_in_range data i Hlen Hs) as [_ Hok].
    rewrite (window_ok_validate data i h Hh), validate_iff in Hok. tauto.
Qed.

(** ** C6 *)

(** C6: once the scan accepted the header at [headerOffset], extraction
    fails with "Corrupted file: size mismatch" when
    [headerOffset + sizeof(StegoHeader) + hiddenFileSize] exceeds the file
    size, and otherwise returns exactly [hiddenFileSize] bytes starting at
    [headerOffset + sizeof(StegoHeader)]; no vector range of extraction ever
    leaves the buffer (for a buffer below [PTRDIFF_MAX] bytes). *)
Theorem extract_size_check data out :
  Z.of_nat (List.length data) < 2 ^ 63 ->
  extractData data out <> Err IteratorOutOfRange
  /\ forall i h,
     (276 <= List.length data)%nat ->
     scan data (List.length data - 276) = Ok (Some (Z.of_nat i)) ->
     deserializeHeader (sub data i 276) = Ok h ->
     (Z.of_nat (List.length data) < Z.of_nat i + 276 + hiddenFileSize h ->
      extractData data out = Err SizeMismatch)
     /\ (Z.of_nat i + 276 + hiddenFileSize h <= Z.of_nat (List.length data) ->
         extractData data out =
         (name <- c_string (filename h) ;;
          Ok (h, generateOutputFilename out name,
              sub data (i + 276) (Z.to_nat (hiddenFileSize h))))).
Proof.
  intros Hbig.
  assert (Found : forall i h,
     (276 <= List.length data)%nat ->
     scan data (List.length data - 276) = Ok (Some (Z.of_nat i)) ->
     deserializeHeader (sub data i 276) = Ok h ->
     (Z.of_nat (List.length data) < Z.of_nat i + 276 + hiddenFileSize h ->
      extractData data out = Err SizeMismatch)
     /\ (Z.of_nat i + 276 + hiddenFileSize h <= Z.of_nat (List.length data) ->
         extractData data out =
         (name <- c_string (filename h) ;;
          Ok (h, generateOutputFilename out name,
              sub data (i + 276) (Z.to_nat (hiddenFileSize h)))))).
  { intros i h Hlen Hs Hh.
    destruct (scan_in_range data i Hlen Hs) as [Hi Hok].
    destruct (extractData_found data out i Hlen Hs ltac:(lia) Hok) as (h' & Hh' & _ & Ex).
    rewrite Hh in Hh'. injection Hh' as <-.
    pose proof (deserialize_size_range _ _ Hh) as Hsz.
    rewrite Ex. rewrite Z.mod_small by lia. split; intros Hc.
    - replace (_ >? _) with true by (symmetry; apply Z.gtb_lt; lia). reflexivity.
    - replace (_ >? _) with false by (symmetry; rewrite Z.gtb_ltb; apply Z.ltb_ge; lia).
      rewrite vec_range_in by lia. cbn [bind].
      replace (Z.to_nat (Z.of_nat i + 276)) with (i + 276)%nat by lia.
      replace (Z.to_nat (Z.of_nat i + 276 + hiddenFileSize h - (Z.of_nat i + 276)))
        with (Z.to_nat (hiddenFileSize h)) by lia.
      reflexivity. }
  split; [|exact Found].
  intros E.
  destruct (Nat.lt_ge_cases (List.length data) 276) as [Hs|Hlen].
  - rewrite extractData_short in E by exact Hs. discriminate.
  - destruct (scan_outcome_holds data (List.length data - 276) ltac:(lia))
      as [Hs _ | i Hs Hi Hok _].
    + rewrite extractData_unfold, Hs in E by exact Hlen. discriminate.
    + destruct (deserialize_window data i ltac:(lia)) as [h Hh].
      destruct (Found i h Hlen Hs Hh) as [F1 F2].
      destruct (Z_lt_le_dec (Z.of_nat (List.length data)) (Z.of_nat i + 276 + hiddenFileSize h)).
      * rewrite F1 in E by assumption. discriminate.
      * rewrite F2 in E by assumption. unfold c_string, bind, throw in E.
        destruct (existsb _ _); discriminate.
Qed.

(** * Lemmas for the round trip *)

Lemma bytes_substring n m s :
  list_byte_of_string (substring n m s) = firstn m (skipn n (list_byte_of_string s)).
Proof.
  revert n m; induction s as [|c s IH]; intros n m.
  - destruct n, m; reflexivity.
  - destruct n as [|n].
    + destruct m as [|m]; [reflexivity|].
      cbn [substring]. unfold list_byte_of_string in *. cbn. f_equal.
      specialize (IH 0%nat m). exact IH.
    + cbn [substring]. rewrite IH. reflexivity.
Qed.

Lemma bytes_length s : List.length (list_byte_of_string s) = String.length s.
Proof.
  induction s as [|c s IH]; [reflexivity|]. unfold list_byte_of_string in *. cbn. now rewrite IH.
Qed.

Lemma strncpy_bytes_no_nul src n :
  ~ In Byte.x00 src -> (n <= List.length src)%nat -> strncpy_bytes src n = firstn n src.
Proof.
  revert src; induction n as [|n IH]; intros src Hnul Hn; [reflexivity|].
  destruct src as [|b r]; cbn in Hn; [lia|].
  cbn [strncpy_bytes firstn].
  destruct (Byte.eqb b Byte.x00) eqn:E.
  - apply Byte.byte_dec_bl in E. subst. exfalso. apply Hnul. left. reflexivity.
  - f_equal. apply IH; [intros H; apply Hnul; right; exact H | lia].
Qed.

Lemma take_until_nul_app l r :
  ~ In Byte.x00 l -> take_until_nul (l ++ Byte.x00 :: r) = l.
Proof.
  induction l as [|b l IH]; intros Hnul; cbn.
  - reflexivity.
  - destruct (Byte.eqb b Byte.x00) eqn:E.
    + apply Byte.byte_dec_bl in E. subst. exfalso. apply Hnul. left. reflexivity.
    + f_equal. apply IH. intros H. apply Hnul. right. exact H.
Qed.

Lemma list_set_app l1 y r v : list_set (l1 ++ y :: r) (List.length l1) v = l1 ++ v :: r.
Proof.
  unfold list_set. rewrite firstn_app, Nat.sub_diag, firstn_O, app_nil_r, firstn_all.
  f_equal. f_equal. rewrite skipn_app. replace (S (List.length l1) - List.length l1)%nat with 1%nat by lia.
  rewrite skipn_all2 by lia. reflexivity.
Qed.

Lemma skipn_repeat_sub {A} n m (x : A) : skipn n (repeat x m) = repeat x (m - n).
Proof.
  revert m; induction n as [|n IH]; intros m; [now rewrite Nat.sub_0_r|].
  destruct m; [reflexivity|]. cbn. apply IH.
Qed.

(** The [filename] array of a header built from a name without NUL: the
    first [min(length, 255)] bytes of the name, then NULs. *)
Lemma createHeader_filename p s :
  let fname := extractFilename p in
  let len := Nat.min (String.length fname) 255 in
  ~ In Byte.x00 (list_byte_of_string fname) ->
  filename (createHeader p s)
  = firstn 255 (list_byte_of_string fname) ++ Byte.x00 :: repeat Byte.x00 (255 - len)
  /\ filenameLength (createHeader p s) = Z.of_nat len
  /\ List.length (firstn 255 (list_byte_of_string fname)) = len.
Proof.
  intros fname len Hnul.
  assert (Hfl : List.length (firstn 255 (list_byte_of_string fname)) = len).
  { rewrite length_firstn, bytes_length. unfold len. lia. }
  assert (Hf : firstn len (list_byte_of_string fname) = firstn 255 (list_byte_of_string fname)).
  { unfold len. destruct (Nat.le_ge_cases (String.length fname) 255).
    - rewrite Nat.min_l by lia. rewrite !firstn_all2 by (rewrite bytes_length; lia). reflexivity.
    - rewrite Nat.min_r by lia. reflexivity. }
  split; [|split; [reflexivity | exact Hfl]].
  unfold createHeader. fold fname. cbn [filename].
  change (MAX_FILENAME_LENGTH - 1)%nat with 255%nat. fold len.
  unfold strncpy. rewrite strncpy_bytes_no_nul by (auto; rewrite bytes_length; unfold len; lia).
  rewrite Hf, skipn_repeat_sub.
  replace (MAX_FILENAME_LENGTH - len)%nat with (S (255 - len)) by (unfold MAX_FILENAME_LENGTH, len; lia).
  cbn [repeat]. rewrite <- Hfl. apply list_set_app.
Qed.

Lemma tail_windows_rejected_spec data off :
  tail_windows_rejected data off = true ->
  forall j, (off < j <= List.length data - 276)%nat -> window_ok data j = false.
Proof.
  unfold tail_windows_rejected. rewrite forallb_forall. intros H j Hj.
  specialize (H j). rewrite in_seq in H.
  apply negb_true_iff, H. lia.
Qed.

Lemma filename_array_id l : List.length l = MAX_FILENAME_LENGTH -> filename_array l = l.
Proof.
  intros H. unfold filename_array. rewrite <- H. rewrite firstn_app, Nat.sub_diag, firstn_O.
  rewrite app_nil_r. apply firstn_all.
Qed.

Lemma validate_createHeader p s : validate (createHeader p s) = true.
Proof. apply validate_iff. split; reflexivity. Qed.

Lemma createHeader_in_range p s : header_in_range (createHeader p s).
Proof.
  assert (Hc : checksum (createHeader p s) = calculateChecksum (createHeader p s)) by reflexivity.
  rewrite calculateChecksum_sum in Hc by apply createHeader_filename_length.
  assert (Hm : magic (createHeader p s) = 0x5354454E) by reflexivity.
  assert (Hv : version (createHeader p s) = 1) by reflexivity.
  assert (Hs : hiddenFileSize (createHeader p s) = s mod 2 ^ 32) by reflexivity.
  assert (Hl : filenameLength (createHeader p s)
               = Z.of_nat (Nat.min (String.length (extractFilename p)) 255)) by reflexivity.
  pose proof (Z.mod_pos_bound s (2 ^ 32) ltac:(lia)).
  match type of Hc with _ = ?x mod _ => pose proof (Z.mod_pos_bound x (2 ^ 32) ltac:(lia)) end.
  unfold header_in_range. rewrite Hm, Hv, Hs, Hl, Hc. repeat split; lia.
Qed.

Lemma deserialize_createHeader pad p s :
  deserializeHeader (serializeHeader pad (createHeader p s)) = Ok (createHeader p s).
Proof.
  rewrite deserialize_serialize by apply createHeader_in_range.
  rewrite filename_array_id by apply createHeader_filename_length.
  reflexivity.
Qed.

Lemma validate_size_ok hiddenSize hostSize :
  MIN_HOST_SIZE <= hostSize -> 0 <= hiddenSize ->
  hiddenSize <= maxHiddenBase hostSize - sizeof_StegoHeader ->
  validateAndCalculateMaxSize hiddenSize hostSize = Ok (maxHiddenBase hostSize - sizeof_StegoHeader).
Proof.
  intros H1 H2 H3. unfold validateAndCalculateMaxSize.
  replace (hostSize <? MIN_HOST_SIZE) with false by (symmetry; apply Z.ltb_ge; lia).
  replace (maxHiddenBase hostSize <? sizeof_StegoHeader) with false
    by (symmetry; apply Z.ltb_ge; lia).
  replace (hiddenSize >? maxHiddenBase hostSize - sizeof_StegoHeader) with false
    by (symmetry; rewrite Z.gtb_ltb; apply Z.ltb_ge; lia).
  reflexivity.
Qed.

Lemma validateFileAccess_ok fs p d :
  p <> EmptyString -> fs p = Some d -> validateFileAccess fs p = Ok tt.
Proof.
  intros Hp Hd. unfold validateFileAccess, fileExists. rewrite Hd.
  destruct (String.eqb_spec p EmptyString); [contradiction|reflexivity].
Qed.

Lemma hideFile_ok fs pad hp hop op hostData hiddenData cap :
  fs hop = Some hostData -> fs hp = Some hiddenData ->
  hp <> EmptyString -> hop <> EmptyString ->
  validateAndCalculateMaxSize (Z.of_nat (List.length hiddenData)) (Z.of_nat (List.length hostData))
  = Ok cap ->
  hideFile fs pad hp hop op
  = Ok (generateOutputFilename op (extractFilename hop),
        hostData ++ serializeHeader pad (createHeader hp (Z.of_nat (List.length hiddenData)))
        ++ hiddenData).
Proof.
  intros Hho Hhi Hp1 Hp2 Hv. unfold hideFile.
  rewrite (validateFileAccess_ok fs hp hiddenData Hp1 Hhi). cbn [bind].
  rewrite (validateFileAccess_ok fs hop hostData Hp2 Hho). cbn [bind].
  unfold getFileSize, readFile. rewrite Hho, Hhi, Hv. reflexivity.
Qed.

Lemma hideFile_inv fs pad hp hop op p out :
  hideFile fs pad hp hop op = Ok (p, out) ->
  exists hostData hiddenData cap,
    fs hop = Some hostData /\ fs hp = Some hiddenData /\
    validateAndCalculateMaxSize (Z.of_nat (List.length hiddenData))
      (Z.of_nat (List.length hostData)) = Ok cap /\
    p = generateOutputFilename op (extractFilename hop) /\
    out = hostData ++ serializeHeader pad (createHeader hp (Z.of_nat (List.length hiddenData)))
          ++ hiddenData.
Proof.
  unfold hideFile, bind, throw, validateFileAccess, readFile, getFileSize, fileExists.
  destruct (String.eqb hp EmptyString); [discriminate|].
  destruct (fs hp) as [hiddenData|] eqn:Hhi; [|discriminate].
  destruct (String.eqb hop EmptyString); [discriminate|].
  destruct (fs hop) as [hostData|] eqn:Hho; [|discriminate].
  destruct (validateAndCalculateMaxSize _ _) as [cap|] eqn:Hv; [|discriminate].
  intros E. injection E as <- <-.
  exists hostData, hiddenData, cap. repeat split; auto.
Qed.

(** Extraction of a composite [host ++ header ++ payload] whose tail windows
    are all rejected. *)
Lemma extract_composite pad hp hostData hiddenData out2 :
  (1 <= List.length hostData)%nat ->
  Z.of_nat (List.length hiddenData) < 2 ^ 32 ->
  Z.of_nat (List.length hostData + 276 + List.length hiddenData) < 2 ^ 63 ->
  ~ In Byte.x00 (list_byte_of_string (extractFilename hp)) ->
  let header := createHeader hp (Z.of_nat (List.length hiddenData)) in
  let out := hostData ++ serializeHeader pad header ++ hiddenData in
  tail_windows_rejected out (List.length hostData) = true ->
  let name := substring 0 255 (extractFilename hp) in
  extractData out out2 = Ok (header, generateOutputFilename out2 name, hiddenData)
  /\ firstn (Z.to_nat (filenameLength header)) (filename header) = list_byte_of_string name
  /\ c_string (filename header) = Ok name.
Proof.
  intros Hh1 Hp32 Hbig Hnul header out Htail name.
  assert (Hsl : List.length (serializeHeader pad header) = 276%nat).
  { pose proof (serializeHeader_length pad header). rewrite sizeof_StegoHeader_eq in H. lia. }
  assert (Hlen : List.length out = (List.length hostData + 276 + List.length hiddenData)%nat).
  { unfold out. rewrite !length_app, Hsl. lia. }
  set (lh := List.length hostData) in *.
  (* the true header sits at index [lh] *)
  assert (Hwin : sub out lh 276 = serializeHeader pad header).
  { unfold out. rewrite sub_app_r by lia. rewrite Nat.sub_diag.
    rewrite sub_app_l by lia. apply sub_exact. exact Hsl. }
  assert (Hdes : deserializeHeader (sub out lh 276) = Ok header).
  { rewrite Hwin. apply deserialize_createHeader. }
  assert (Hok : window_ok out lh = true).
  { rewrite (window_ok_validate out lh header Hdes). apply validate_createHeader. }
  assert (Hsc : scan out (List.length out - 276) = Ok (Some (Z.of_nat lh))).
  { destruct (scan_outcome_holds out (List.length out - 276) ltac:(lia))
      as [Hs Hall | i Hs Hi Hoki Hmax].
    - rewrite Hall in Hok by lia. discriminate.
    - rewrite Hs. destruct (Nat.lt_total i lh) as [Hlt | [Heq | Hgt]].
      + rewrite Hmax in Hok by lia. discriminate.
      + now subst.
      + rewrite (tail_windows_rejected_spec out lh Htail i) in Hoki by lia. discriminate. }
  (* the file name stored in the header *)
  destruct (createHeader_filename hp (Z.of_nat (List.length hiddenData)) Hnul)
    as (Hfn & Hfl & HA).
  fold header in Hfn, Hfl.
  set (A := firstn 255 (list_byte_of_string (extractFilename hp))) in *.
  assert (HAname : A = list_byte_of_string name).
  { unfold A, name. rewrite bytes_substring. reflexivity. }
  assert (HAnul : ~ In Byte.x00 A).
  { intros HI. apply Hnul. unfold A in HI. rewrite <- (firstn_skipn 255 (list_byte_of_string (extractFilename hp))). apply in_or_app. left. exact HI. }
  assert (Hcs : c_string (filename header) = Ok name).
  { unfold c_string. rewrite Hfn.
    replace (existsb (Byte.eqb Byte.x00) (A ++ Byte.x00 :: repeat Byte.x00 _)) with true.
    - rewrite take_until_nul_app by exact HAnul. rewrite HAname.
      rewrite string_of_list_byte_of_string. reflexivity.
    - symmetry. apply existsb_exists. exists Byte.x00. split.
      + apply in_or_app. right. left. reflexivity.
      + reflexivity. }
  split; [|split].
  - destruct (extractData_found out out2 lh ltac:(lia) Hsc ltac:(lia) Hok)
      as (h & Hh & _ & Ex).
    rewrite Hdes in Hh. injection Hh as <-.
    assert (Hsz : hiddenFileSize header = Z.of_nat (List.length hiddenData)).
    { unfold header. cbn [createHeader hiddenFileSize]. apply Z.mod_small. lia. }
    rewrite Ex, Hsz.
    rewrite Z.mod_small by lia.
    replace (_ >? _) with false by (symmetry; rewrite Z.gtb_ltb; apply Z.ltb_ge; lia).
    rewrite vec_range_in by lia. cbn [bind].
    replace (Z.to_nat (Z.of_nat lh + 276)) with (lh + 276)%nat by lia.
    replace (Z.to_nat (Z.of_nat lh + 276 + Z.of_nat (List.length hiddenData) - (Z.of_nat lh + 276)))
      with (List.length hiddenData) by lia.
    assert (Hpay : sub out (lh + 276) (List.length hiddenData) = hiddenData).
    { unfold out. rewrite sub_app_r by lia. rewrite sub_app_r by (rewrite Hsl; lia).
      rewrite Hsl. replace (lh + 276 - Datatypes.length hostData - 276)%nat with 0%nat by (unfold lh; lia).
      apply sub_all. }
    rewrite Hpay, Hcs. reflexivity.
  - rewrite Hfn, Hfl, Nat2Z.id, <- HA. rewrite firstn_app, Nat.sub_diag, firstn_O, app_nil_r.
    rewrite firstn_all. exact HAname.
  - exact Hcs.
Qed.

(** Claim C1 (amended): embedding followed by extraction returns the payload
    unchanged, with the stored file name being the base name of the hidden
    file truncated to 255 bytes, provided the payload is shorter than 2^32
    bytes, the composite file is shorter than 2^63 bytes, the base name holds
    no NUL byte, and no 276-byte window strictly after the true header (in
    particular inside the payload) passes the scan's magic, version and
    checksum test. *)
Theorem embed_extract_roundtrip fs pad hiddenPath hostPath outPath outPath2 hostData hiddenData :
  fs hostPath = Some hostData -> fs hiddenPath = Some hiddenData ->
  hiddenPath <> EmptyString -> hostPath <> EmptyString ->
  MIN_HOST_SIZE <= Z.of_nat (List.length hostData) ->
  Z.of_nat (List.length hiddenData)
    <= maxHiddenBase (Z.of_nat (List.length hostData)) - sizeof_StegoHeader ->
  Z.of_nat (List.length hiddenData) < 2 ^ 32 ->
  Z.of_nat (List.length hostData + 276 + List.length hiddenData) < 2 ^ 63 ->
  ~ In Byte.x00 (list_byte_of_string (extractFilename hiddenPath)) ->
  let out := hostData
             ++ serializeHeader pad (createHeader hiddenPath (Z.of_nat (List.length hiddenData)))
             ++ hiddenData in
  tail_windows_rejected out (List.length hostData) = true ->
  let name := substring 0 255 (extractFilename hiddenPath) in
  hideFile fs pad hiddenPath hostPath outPath
    = Ok (generateOutputFilename outPath (extractFilename hostPath), out)
  /\ exists h,
       extractData out outPath2 = Ok (h, generateOutputFilename outPath2 name, hiddenData)
       /\ firstn (Z.to_nat (filenameLength h)) (filename h) = list_byte_of_string name
       /\ c_string (filename h) = Ok name.
Proof.
  intros Hho Hhi Hne1 Hne2 Hmin Hcap Hp32 Hbig Hnul out Htail name.
  split.
  - eapply hideFile_ok; eauto. apply validate_size_ok.
    + exact Hmin.
    + lia.
    + exact Hcap.
  - destruct (extract_composite pad hiddenPath hostData hiddenData outPath2
                ltac:(unfold MIN_HOST_SIZE in Hmin; lia) Hp32 Hbig Hnul Htail) as (E & F & C).
    eexists. split; [exact E | split; [exact F | exact C]].
Qed.

(** ** Bounds on binary64 rounding

    The rounding of [SpecFloat] keeps a power-of-two lower bound of the
    exact value when no underflow occurs; this gives a lower bound on the
    capacity base [maxHiddenBase]. *)

Lemma digits2_pos_size p : digits2_pos p = Pos.size p.
Proof. induction p; simpl; congruence. Qed.

Lemma digits_spec p :
  2 ^ (Zpos (digits2_pos p) - 1) <= Zpos p < 2 ^ Zpos (digits2_pos p).
Proof.
  assert (Hl : Z.log2 (Zpos p) = Zpos (digits2_pos p) - 1).
  { rewrite digits2_pos_size. destruct p; [cbn [Z.log2 Pos.size]; rewrite Pos2Z.inj_succ; lia | cbn [Z.log2 Pos.size]; rewrite Pos2Z.inj_succ; lia | reflexivity]. }
  pose proof (Z.log2_spec (Zpos p) ltac:(lia)) as [H1 H2].
  rewrite Hl in H1, H2. replace (Z.succ (Zpos (digits2_pos p) - 1)) with (Zpos (digits2_pos p)) in H2 by lia.
  lia.
Qed.

Lemma shr_1_m r : 0 <= shr_m r -> shr_m (shr_1 r) = Z.shiftr (shr_m r) 1.
Proof.
  destruct r as [m r s]; simpl. intros H.
  destruct m as [|[q|q|]|q]; simpl; try reflexivity; lia.
Qed.

Lemma iter_shr_1_m p r :
  0 <= shr_m r -> shr_m (iter_pos shr_1 p r) = Z.shiftr (shr_m r) (Zpos p).
Proof.
  revert r. induction p as [p IH|p IH|]; intros r H; simpl.
  - rewrite IH.
    + rewrite IH.
      * rewrite shr_1_m by exact H. rewrite !Z.shiftr_shiftr by lia. f_equal. lia.
      * rewrite shr_1_m by exact H. apply Z.shiftr_nonneg. exact H.
    + rewrite IH.
      * apply Z.shiftr_nonneg. rewrite shr_1_m by exact H. apply Z.shiftr_nonneg. exact H.
      * rewrite shr_1_m by exact H. apply Z.shiftr_nonneg. exact H.
  - rewrite IH.
    + rewrite IH by exact H. rewrite Z.shiftr_shiftr by lia. f_equal. lia.
    + rewrite IH by exact H. apply Z.shiftr_nonneg. exact H.
  - apply shr_1_m. exact H.
Qed.

Lemma pow2_lt_exp a b : 0 <= a -> 2 ^ a < 2 ^ b -> a < b.
Proof.
  intros Ha H. destruct (Z.lt_ge_cases a b) as [|Hba]; [assumption|].
  destruct (Z.lt_ge_cases b 0) as [Hb|Hb].
  - rewrite (Z.pow_neg_r 2 b Hb) in H. pose proof (Z.pow_pos_nonneg 2 a ltac:(lia) Ha). lia.
  - pose proof (Z.pow_le_mono_r 2 b a ltac:(lia) Hba). lia.
Qed.

Lemma pow2_le_exp a b : 0 <= a -> 2 ^ a <= 2 ^ b -> a <= b.
Proof.
  intros Ha H. assert (a < b + 1); [|lia].
  apply pow2_lt_exp; [exact Ha|].
  destruct (Z.lt_ge_cases b 0) as [Hb|Hb].
  - rewrite (Z.pow_neg_r 2 b Hb) in H. pose proof (Z.pow_pos_nonneg 2 a ltac:(lia) Ha). lia.
  - rewrite Z.pow_add_r by lia. lia.
Qed.

Lemma emin64_eq : emin64 = -1074.
Proof. reflexivity. Qed.

Lemma shr_fexp_eq m e mrs e' :
  shr_fexp prec emax (Zpos m) e loc_Exact = (mrs, e') ->
  e' = Z.max e (Z.max (Zpos (digits2_pos m) + e - prec) emin64)
  /\ shr_m mrs = Z.shiftr (Zpos m) (e' - e).
Proof.
  unfold shr_fexp, shr, fexp. cbn [shr_record_of_loc Zdigits2].
  fold emin64.
  destruct (Z.max (Zpos (digits2_pos m) + e - prec) emin64 - e) as [|p|p] eqn:En;
    intros Heq; injection Heq as <- <-; cbn [shr_m].
  - split; [lia|]. rewrite Z.sub_diag. reflexivity.
  - rewrite iter_shr_1_m by (cbn; lia). cbn [shr_m]. split; [lia|]. f_equal. lia.
  - split; [lia|]. rewrite Z.sub_diag. reflexivity.
Qed.

Lemma shr_fexp_bounds m e mrs e' :
  shr_fexp prec emax (Zpos m) e loc_Exact = (mrs, e') ->
  let D := Zpos (digits2_pos m) in
  0 <= shr_m mrs < 2 ^ prec
  /\ e' = Z.max e (Z.max (D + e - prec) emin64)
  /\ (emin64 <= D - 1 + e -> e' <= D - 1 + e /\ 2 ^ (D - 1 + e - e') <= shr_m mrs).
Proof.
  intros Heq D. destruct (shr_fexp_eq m e mrs e' Heq) as [He Hm]. fold D in He.
  pose proof (digits_spec m) as [Hlo Hhi]. fold D in Hlo, Hhi.
  assert (Hn : 0 <= e' - e) by lia.
  rewrite Z.shiftr_div_pow2 in Hm by exact Hn.
  pose proof (Z.pow_pos_nonneg 2 (e' - e) ltac:(lia) Hn) as Hp.
  split; [split|split; [exact He|]].
  - rewrite Hm. apply Z.div_pos; lia.
  - rewrite Hm. apply Z.div_lt_upper_bound; [lia|].
    rewrite <- Z.pow_add_r by (unfold prec; lia).
    eapply Z.lt_le_trans; [exact Hhi|]. apply Z.pow_le_mono_r; unfold prec in *; lia.
  - intros Hk. unfold prec in He. split; [lia|].
    rewrite Hm. apply Z.div_le_lower_bound; [lia|].
    rewrite <- Z.pow_add_r by lia.
    replace (e' - e + (D - 1 + e - e')) with (D - 1) by lia. exact Hlo.
Qed.

Lemma round_nearest_even_bounds x l : x <= round_nearest_even x l <= x + 1.
Proof. destruct l as [|[| |]]; simpl; try destruct (Z.even x); lia. Qed.

Lemma binary_round_aux_spec m e :
  let D := Zpos (digits2_pos m) in
  emin64 <= D - 1 + e ->
  Z.max (e + 1) (D + e - 52) <= emax - prec ->
  exists m' e', binary_round_aux prec emax false (Zpos m) e loc_Exact = S754_finite false m' e'
    /\ Zpos m' < 2 ^ prec
    /\ e' <= Z.max (e + 1) (Z.max (D + e - 52) (emin64 + 1))
    /\ (e' <= D - 1 + e -> 2 ^ (D - 1 + e - e') <= Zpos m').
Proof.
  intros D Hmin Hmax. unfold binary_round_aux.
  destruct (shr_fexp prec emax (Zpos m) e loc_Exact) as [mrs1 e1] eqn:E1.
  destruct (shr_fexp_bounds m e mrs1 e1 E1) as ([H1lo H1hi] & He1 & H1k).
  fold D in He1, H1k. destruct (H1k Hmin) as [He1k Hm1].
  pose proof (round_nearest_even_bounds (shr_m mrs1) (loc_of_shr_record mrs1)) as Hr.
  destruct (round_nearest_even (shr_m mrs1) (loc_of_shr_record mrs1)) as [|p2|p2] eqn:Er.
  { pose proof (Z.pow_pos_nonneg 2 (D - 1 + e - e1) ltac:(lia) ltac:(lia)). lia. }
  2: { pose proof (Z.pow_pos_nonneg 2 (D - 1 + e - e1) ltac:(lia) ltac:(lia)). lia. }
  destruct (shr_fexp prec emax (Zpos p2) e1 loc_Exact) as [mrs2 e2] eqn:E2.
  destruct (shr_fexp_bounds p2 e1 mrs2 e2 E2) as ([H2lo H2hi] & He2 & H2k).
  set (D2 := Zpos (digits2_pos p2)) in *.
  pose proof (digits_spec p2) as [Hd2lo Hd2hi]. fold D2 in Hd2lo, Hd2hi.
  assert (HD2 : D2 <= 54).
  { assert (D2 - 1 <= prec); [|unfold prec in *; lia].
    apply pow2_le_exp; [lia|]. lia. }
  assert (HD2k : D - 1 + e - e1 < D2).
  { apply pow2_lt_exp; [lia|]. lia. }
  destruct (H2k ltac:(lia)) as [He2k Hm2].
  pose proof (Z.pow_pos_nonneg 2 (D2 - 1 + e1 - e2) ltac:(lia) ltac:(lia)).
  destruct (shr_m mrs2) as [|m'|m'] eqn:Em2; [lia| |lia].
  assert (Hfin : e2 <= emax - prec) by (unfold prec, emax in *; rewrite emin64_eq in *; lia).
  apply Z.leb_le in Hfin. rewrite Hfin.
  exists m', e2. split; [reflexivity|]. split; [lia|]. split.
  - unfold prec in *. rewrite emin64_eq in *. lia.
  - intros Hk. eapply Z.le_trans; [|exact Hm2]. apply Z.pow_le_mono_r; lia.
Qed.

Lemma log2_digits p : Z.log2 (Zpos p) = Zpos (digits2_pos p) - 1.
Proof.
  rewrite digits2_pos_size.
  destruct p; [cbn [Z.log2 Pos.size]; rewrite Pos2Z.inj_succ; lia
              | cbn [Z.log2 Pos.size]; rewrite Pos2Z.inj_succ; lia | reflexivity].
Qed.

Lemma digits_lower_of m e k :
  (e <= k -> 2 ^ (k - e) <= Zpos m) -> k <= Zpos (digits2_pos m) - 1 + e.
Proof.
  intros H. pose proof (digits_spec m) as [_ Hhi].
  destruct (Z.le_gt_cases e k) as [Hek|Hek]; [|lia].
  assert (k - e < Zpos (digits2_pos m)); [|lia].
  apply pow2_lt_exp; [lia|]. specialize (H Hek). lia.
Qed.

Lemma digits_upper_of m b : 0 <= b -> Zpos m < 2 ^ b -> Zpos (digits2_pos m) <= b.
Proof.
  intros Hb H. pose proof (digits_spec m) as [Hlo _].
  assert (Zpos (digits2_pos m) - 1 < b); [|lia].
  apply pow2_lt_exp; lia.
Qed.

Lemma pos_iter_xO m d : Zpos (Pos.iter xO m d) = Zpos m * 2 ^ Zpos d.
Proof.
  rewrite <- Z.shiftl_mul_pow2 by lia. cbn [Z.shiftl].
  apply (Pos.iter_swap_gen _ _ Zpos xO (Z.mul 2)). reflexivity.
Qed.

Lemma double_of_Z_spec h :
  1 <= h < 2 ^ 64 ->
  exists m e, double_of_Z h = S754_finite false m e
    /\ Zpos m < 2 ^ prec /\ e <= 12 /\ Z.log2 h <= Zpos (digits2_pos m) - 1 + e.
Proof.
  intros Hh. destruct h as [|p|p]; try lia.
  unfold double_of_Z, binary_normalize, binary_round, fexp. fold emin64. rewrite emin64_eq.
  rewrite log2_digits.
  pose proof (digits_upper_of p 64 ltac:(lia) ltac:(lia)) as HD.
  pose proof (digits_spec p) as [Hlo Hhi].
  unfold shl_align. rewrite Z.add_0_r, Z.sub_0_r.
  remember (Zpos (digits2_pos p)) as D eqn:HDdef.
  destruct (Z.max (D - prec) (-1074)) as [|d|d] eqn:Ed.
  - destruct (binary_round_aux_spec p 0) as (m' & e' & Eq & Hm & He & Hk);
      rewrite <- ?HDdef in *; rewrite ?emin64_eq in *; unfold prec, emax in *; try lia.
    exists m', e'. rewrite Eq. repeat split; try lia.
    rewrite Z.add_0_r in Hk. apply digits_lower_of in Hk. lia.
  - destruct (binary_round_aux_spec p 0) as (m' & e' & Eq & Hm & He & Hk);
      rewrite <- ?HDdef in *; rewrite ?emin64_eq in *; unfold prec, emax in *; try lia.
    exists m', e'. rewrite Eq. repeat split; try lia.
    rewrite Z.add_0_r in Hk. apply digits_lower_of in Hk. lia.
  - set (mz := Pos.iter xO p d).
    assert (Hmz : Zpos mz = Zpos p * 2 ^ (53 - D)).
    { unfold mz. rewrite pos_iter_xO. f_equal. f_equal. pose proof (Pos2Z.neg_is_neg d). unfold prec in Ed. lia. }
    assert (HDz : Zpos (digits2_pos mz) = 53).
    { assert (H52 : 2 ^ 52 <= Zpos mz < 2 ^ 53).
      { pose proof (Pos2Z.neg_is_neg d). unfold prec in Ed.
        rewrite Hmz.
        assert (E52 : 2 ^ 52 = 2 ^ (D - 1) * 2 ^ (53 - D))
          by (rewrite <- Z.pow_add_r by lia; f_equal; lia).
        assert (E53 : 2 ^ 53 = 2 ^ D * 2 ^ (53 - D))
          by (rewrite <- Z.pow_add_r by lia; f_equal; lia).
        rewrite E52, E53.
        pose proof (Z.pow_pos_nonneg 2 (53 - D) ltac:(lia) ltac:(lia)). split; nia. }
      pose proof (digits_upper_of mz 53 ltac:(lia) ltac:(lia)).
      pose proof (digits_spec mz) as [_ Hz].
      assert (52 < Zpos (digits2_pos mz)) by (apply pow2_lt_exp; lia). lia. }
    destruct (binary_round_aux_spec mz (Zneg d)) as (m' & e' & Eq & Hm & He & Hk);
      rewrite HDz in *; rewrite ?emin64_eq in *; unfold prec, emax in *; try lia.
    exists m', e'. rewrite Eq. repeat split; try lia.
    apply digits_lower_of in Hk. lia.
Qed.

Lemma MAX_HIDDEN_SIZE_RATIO_eq :
  MAX_HIDDEN_SIZE_RATIO = S754_finite false 7656119366529843 (-53).
Proof. vm_compute. reflexivity. Qed.

Lemma size_t_of_double_lower m e k :
  0 <= k -> (e <= k -> 2 ^ (k - e) <= Zpos m) ->
  2 ^ k <= size_t_of_double (S754_finite false m e).
Proof.
  intros Hk H. unfold size_t_of_double.
  destruct (0 <=? e) eqn:He.
  - apply Z.leb_le in He. destruct (Z.le_gt_cases e k) as [Hek|Hek].
    + specialize (H Hek). replace k with ((k - e) + e) at 1 by lia.
      rewrite Z.pow_add_r by lia. pose proof (Z.pow_pos_nonneg 2 e ltac:(lia) He). nia.
    + pose proof (Z.pow_le_mono_r 2 k e ltac:(lia) ltac:(lia)). nia.
  - apply Z.leb_gt in He. rewrite Z.shiftr_div_pow2 by lia.
    apply Z.div_le_lower_bound; [apply Z.pow_pos_nonneg; lia|].
    rewrite <- Z.pow_add_r by lia. replace (- e + k) with (k - e) by lia. apply H. lia.
Qed.

Lemma maxHiddenBase_lower h :
  10240 <= h < 2 ^ 64 -> 2 ^ 12 <= maxHiddenBase h.
Proof.
  intros Hh. unfold maxHiddenBase. rewrite MAX_HIDDEN_SIZE_RATIO_eq.
  destruct (double_of_Z_spec h ltac:(lia)) as (m1 & e1 & E1 & Hm1 & He1 & Hk1).
  rewrite E1. cbn [SFmul xorb].
  assert (Hlog : 13 <= Z.log2 h).
  { change 13 with (Z.log2 8192). apply Z.log2_le_mono. lia. }
  set (D1 := Zpos (digits2_pos m1)) in *.
  pose proof (digits_spec m1) as [H1lo _]. fold D1 in H1lo.
  set (mp := (m1 * 7656119366529843)%positive).
  remember (Zpos (digits2_pos mp)) as Dp eqn:HDpdef.
  assert (Hmp : Zpos mp = Zpos m1 * 7656119366529843) by reflexivity.
  assert (HDp : D1 - 1 + 52 <= Dp - 1).
  { pose proof (digits_spec mp) as [_ Hpp]. rewrite <- HDpdef in Hpp.
    assert (D1 - 1 + 52 < Dp); [|lia]. apply pow2_lt_exp; [lia|].
    rewrite Z.pow_add_r by lia. unfold prec in Hm1. nia. }
  assert (HDp2 : Dp <= 106).
  { rewrite HDpdef. apply digits_upper_of; [lia|]. rewrite Hmp. unfold prec in Hm1. nia. }
  destruct (binary_round_aux_spec mp (e1 + -53)) as (m' & e' & Eq & _ & _ & Hk);
    [rewrite <- HDpdef; rewrite emin64_eq; lia | rewrite <- HDpdef; unfold prec, emax; lia |].
  rewrite <- HDpdef in Hk. rewrite Eq. apply size_t_of_double_lower; [lia|].
  intros Hek. eapply Z.le_trans; [|apply Hk; lia].
  apply Z.pow_le_mono_r; lia.
Qed.

(** * Capacity, output length and output paths *)

Lemma validate_no_room s h :
  MIN_HOST_SIZE <= h < 2 ^ 64 ->
  sizeof_StegoHeader <= maxHiddenBase h /\ validateAndCalculateMaxSize s h <> Err SizeNoRoom.
Proof.
  intros Hh. pose proof (maxHiddenBase_lower h ltac:(unfold MIN_HOST_SIZE in Hh; lia)) as Hb.
  rewrite sizeof_StegoHeader_eq. split; [lia|].
  unfold validateAndCalculateMaxSize, throw. rewrite sizeof_StegoHeader_eq.
  replace (h <? MIN_HOST_SIZE) with false by (symmetry; apply Z.ltb_ge; lia).
  replace (maxHiddenBase h <? 276) with false by (symmetry; apply Z.ltb_ge; lia).
  destruct (_ >? _); discriminate.
Qed.

Lemma hideFile_err fs pad hp hop op e :
  hideFile fs pad hp hop op = Err e ->
  e = FileAccess
  \/ exists hostData hiddenData, fs hop = Some hostData /\ fs hp = Some hiddenData /\
       validateAndCalculateMaxSize (Z.of_nat (List.length hiddenData))
         (Z.of_nat (List.length hostData)) = Err e.
Proof.
  unfold hideFile, bind, throw, validateFileAccess, readFile, getFileSize, fileExists.
  destruct (String.eqb hp EmptyString); [intros E; injection E; auto|].
  destruct (fs hp) as [hiddenData|] eqn:Hhi; [|intros E; injection E; auto].
  destruct (String.eqb hop EmptyString); [intros E; injection E; auto|].
  destruct (fs hop) as [hostData|] eqn:Hho; [|intros E; injection E; auto].
  destruct (validateAndCalculateMaxSize _ _) as [cap|e'] eqn:Hv; [discriminate|].
  intros E. injection E as <-. right. eauto.
Qed.

Lemma extractData_name data out h p payload :
  extractData data out = Ok (h, p, payload) ->
  exists name, c_string (filename h) = Ok name /\ p = generateOutputFilename out name.
Proof.
  unfold extractData, bind, throw.
  destruct (_ <? _); [discriminate|].
  destruct (scan _ _) as [[o|]|e]; try discriminate.
  destruct (vec_range _ _ _) as [w|e]; [|discriminate].
  destruct (deserializeHeader w) as [h0|e]; [|discriminate].
  destruct (negb (validate h0)); [discriminate|].
  destruct (_ >? _); [discriminate|].
  destruct (vec_range _ _ _) as [pl|e]; [|discriminate].
  destruct (c_string (filename h0)) as [name|e] eqn:Ec; [|discriminate].
  intros E. injection E as <- <- <-. eauto.
Qed.

Lemma nat_of_ascii_of_nat_small n : (n < 256)%nat -> nat_of_ascii (ascii_of_nat n) = n.
Proof. intros H. apply nat_ascii_embedding. exact H. Qed.

Lemma tolower_idem c : tolower (tolower c) = tolower c.
Proof.
  unfold tolower. pose proof (nat_ascii_bounded c) as Hc.
  destruct ((65 <=? nat_of_ascii c)%nat && (nat_of_ascii c <=? 90)%nat) eqn:E.
  - apply andb_true_iff in E as [E1 E2]. apply Nat.leb_le in E1, E2.
    rewrite nat_of_ascii_of_nat_small by lia.
    replace ((65 <=? nat_of_ascii c + 32)%nat && (nat_of_ascii c + 32 <=? 90)%nat) with false;
      [reflexivity|].
    symmetry. apply andb_false_iff. right. apply Nat.leb_gt. lia.
  - rewrite E. reflexivity.
Qed.

Lemma string_map_tolower_idem s : string_map tolower (string_map tolower s) = string_map tolower s.
Proof. induction s as [|c s IH]; simpl; [reflexivity|]. rewrite tolower_idem, IH. reflexivity. Qed.

(** Claim C2 (amended): [sizeof(StegoHeader)] is 276, not 272: the members
    sit at offsets 0, 4, 8, 12, 14 and 272, with two padding bytes after
    [version] (offsets 6 and 7) and two before [checksum] (offsets 270 and
    271).  Every serialized header is 276 bytes long, and the output of every
    successful embed is the host, a 276-byte header and the payload, so its
    length is hostSize + 276 + payloadSize. *)
Theorem embed_output_length fs pad hp hop op p out :
  hideFile fs pad hp hop op = Ok (p, out) ->
  sizeof_StegoHeader = 276
  /\ member_offsets 0 StegoHeader_members = [0; 4; 8; 12; 14; 272]
  /\ (forall pad' h, List.length (serializeHeader pad' h) = 276%nat
        /\ sub (serializeHeader pad' h) 6 2 = [pad' 6; pad' 7]
        /\ sub (serializeHeader pad' h) 270 2 = [pad' 270; pad' 271])
  /\ exists hostData hiddenData,
       fs hop = Some hostData /\ fs hp = Some hiddenData /\
       List.length out = (List.length hostData + 276 + List.length hiddenData)%nat.
Proof.
  intros E. split; [apply sizeof_StegoHeader_eq|]. split; [reflexivity|]. split.
  - intros pad' h. split; [|split].
    + pose proof (serializeHeader_length pad' h) as L. rewrite sizeof_StegoHeader_eq in L. lia.
    + unfold serializeHeader. sub_field. reflexivity.
    + unfold serializeHeader. sub_field. reflexivity.
  - destruct (hideFile_inv fs pad hp hop op p out E)
      as (hostData & hiddenData & cap & Hho & Hhi & _ & _ & ->).
    exists hostData, hiddenData. split; [exact Hho|]. split; [exact Hhi|].
    pose proof (serializeHeader_length pad (createHeader hp (Z.of_nat (List.length hiddenData)))) as L.
    rewrite sizeof_StegoHeader_eq in L. rewrite !length_app. lia.
Qed.

(** Claim C4 (amended): for a host size [h] with 10240 <= h < 2^64 the
    capacity is cap = maxHiddenBase h - 276, where maxHiddenBase h is the
    truncation of the binary64 product of [h] (converted to double) and the
    double nearest to 0.85, not floor(h * 0.85) in exact arithmetic; cap is
    positive, a payload of cap bytes succeeds, one of cap + 1 bytes fails with
    the size error, and every size up to cap succeeds while every larger one
    fails; every host size below 10240 fails with "host too small". *)
Theorem capacity_boundary h :
  MIN_HOST_SIZE <= h < 2 ^ 64 ->
  let cap := maxHiddenBase h - sizeof_StegoHeader in
  0 < cap
  /\ validateAndCalculateMaxSize cap h = Ok cap
  /\ validateAndCalculateMaxSize (cap + 1) h = Err SizeExceeds
  /\ (forall s, s <= cap -> validateAndCalculateMaxSize s h = Ok cap)
  /\ (forall s, cap < s -> validateAndCalculateMaxSize s h = Err SizeExceeds)
  /\ (forall h' s, h' < MIN_HOST_SIZE -> validateAndCalculateMaxSize s h' = Err SizeHostTooSmall).
Proof.
  intros Hh cap.
  pose proof (maxHiddenBase_lower h ltac:(unfold MIN_HOST_SIZE in Hh; lia)) as Hb.
  assert (Hcap : 0 < cap) by (unfold cap; rewrite sizeof_StegoHeader_eq; lia).
  assert (Hs : forall s, validateAndCalculateMaxSize s h
                         = if s >? cap then Err SizeExceeds else Ok cap).
  { intros s. unfold validateAndCalculateMaxSize, throw.
    replace (h <? MIN_HOST_SIZE) with false by (symmetry; apply Z.ltb_ge; lia).
    replace (maxHiddenBase h <? sizeof_StegoHeader) with false
      by (symmetry; apply Z.ltb_ge; unfold cap in Hcap; lia).
    reflexivity. }
  assert (Hok : forall s, s <= cap -> validateAndCalculateMaxSize s h = Ok cap).
  { intros s Hle. rewrite Hs. replace (s >? cap) with false; [reflexivity|].
    symmetry. rewrite Z.gtb_ltb. apply Z.ltb_ge. exact Hle. }
  assert (Hex : forall s, cap < s -> validateAndCalculateMaxSize s h = Err SizeExceeds).
  { intros s Hlt. rewrite Hs. replace (s >? cap) with true; [reflexivity|].
    symmetry. rewrite Z.gtb_ltb. apply Z.ltb_lt. exact Hlt. }
  split; [exact Hcap|]. split; [apply Hok; lia|]. split; [apply Hex; lia|].
  split; [exact Hok|]. split; [exact Hex|].
  intros h' s Hlt. unfold validateAndCalculateMaxSize.
  replace (h' <? MIN_HOST_SIZE) with true by (symmetry; apply Z.ltb_lt; exact Hlt).
  reflexivity.
Qed.

(** Claim C10: for every host size with 10240 <= h < 2^64 the truncated
    product maxHiddenBase h is at least the header width, so the "no room"
    error of [validateAndCalculateMaxSize] is unreachable; hence an embed
    whose host file is shorter than 2^64 bytes never fails with it. *)
Theorem size_no_room_unreachable fs pad hp hop op :
  (forall d, fs hop = Some d -> Z.of_nat (List.length d) < 2 ^ 64) ->
  hideFile fs pad hp hop op <> Err SizeNoRoom
  /\ (forall s h, MIN_HOST_SIZE <= h < 2 ^ 64 ->
        sizeof_StegoHeader <= maxHiddenBase h
        /\ validateAndCalculateMaxSize s h <> Err SizeNoRoom).
Proof.
  intros Hfs. split.
  - intros E. destruct (hideFile_err fs pad hp hop op SizeNoRoom E)
      as [D | (hostData & hiddenData & Hho & Hhi & Hv)]; [discriminate|].
    specialize (Hfs hostData Hho).
    destruct (Z.lt_ge_cases (Z.of_nat (List.length hostData)) MIN_HOST_SIZE) as [Hlt|Hge].
    + unfold validateAndCalculateMaxSize in Hv.
      replace (_ <? MIN_HOST_SIZE) with true in Hv by (symmetry; apply Z.ltb_lt; exact Hlt).
      discriminate.
    + apply (proj2 (validate_no_room (Z.of_nat (List.length hiddenData))
                      (Z.of_nat (List.length hostData)) ltac:(lia))). exact Hv.
  - intros s h Hh. apply validate_no_room. exact Hh.
Qed.

(** Claim C9 (amended): [generateOutputFilename user orig] returns
    "extracted_" followed by [orig] when [user] is empty, [user] itself when
    it has an extension (a dot after its last path separator), and otherwise
    [user] followed by the extension of [orig] converted to lower case.
    Embedding calls it with the base name of the host path, so an empty
    output path for embed also yields "extracted_" and the host's name;
    extraction calls it with the NUL-terminated file name of the header. *)
Theorem output_path_rules user orig :
  (user = EmptyString -> generateOutputFilename user orig = String.append "extracted_" orig)
  /\ (user <> EmptyString -> hasExtension user = true -> generateOutputFilename user orig = user)
  /\ (user <> EmptyString -> hasExtension user = false ->
      generateOutputFilename user orig = String.append user (getExtension orig))
  /\ string_map tolower (getExtension orig) = getExtension orig
  /\ (forall fs pad hp hop op p out, hideFile fs pad hp hop op = Ok (p, out) ->
        p = generateOutputFilename op (extractFilename hop))
  /\ (forall data out h p payload, extractData data out = Ok (h, p, payload) ->
        exists name, c_string (filename h) = Ok name /\ p = generateOutputFilename out name).
Proof.
  split; [|split; [|split; [|split; [|split]]]].
  - intros ->. reflexivity.
  - intros Hne Hext. unfold generateOutputFilename. rewrite Hext.
    destruct (String.eqb_spec user EmptyString); [contradiction|reflexivity].
  - intros Hne Hext. unfold generateOutputFilename. rewrite Hext.
    destruct (String.eqb_spec user EmptyString); [contradiction|reflexivity].
  - unfold getExtension. destruct (find_last_of is_dot orig); [|reflexivity].
    apply string_map_tolower_idem.
  - intros fs pad hp hop op p out E.
    destruct (hideFile_inv fs pad hp hop op p out E) as (? & ? & ? & _ & _ & _ & -> & _).
    reflexivity.
  - exact extractData_name.
Qed.

(** * Further properties of the code *)

(** ** Further properties: the string utilities *)

(** [find_last_of] from a later start index shifts its answer. *)
Lemma find_last_of_from_shift pr s i acc :
  find_last_of_from pr s i acc
  = match find_last_of pr s with None => acc | Some k => Some (i + k)%nat end.
Proof.
  revert i acc; induction s as [|c r IH]; intros i acc; [reflexivity|].
  unfold find_last_of. cbn [find_last_of_from]. rewrite (IH (S i)), (IH 1%nat).
  unfold find_last_of.
  destruct (find_last_of_from pr r 0 None) as [k|]; [f_equal; lia|].
  destruct (pr c); [f_equal; lia|reflexivity].
Qed.

Lemma find_last_of_cons pr c r :
  find_last_of pr (String c r)
  = match find_last_of pr r with
    | Some k => Some (S k)
    | None => if pr c then Some 0%nat else None
    end.
Proof.
  unfold find_last_of at 1. cbn [find_last_of_from]. rewrite find_last_of_from_shift.
  destruct (find_last_of pr r); reflexivity.
Qed.

Lemma find_last_of_app pr a b :
  find_last_of pr (a ++ b)
  = match find_last_of pr b with
    | Some k => Some (String.length a + k)%nat
    | None => find_last_of pr a
    end.
Proof.
  induction a as [|c a IH]; cbn [String.append String.length].
  - destruct (find_last_of pr b); reflexivity.
  - rewrite !find_last_of_cons, IH.
    destruct (find_last_of pr b); reflexivity.
Qed.

Lemma find_last_of_some pr s k :
  find_last_of pr s = Some k ->
  exists a c b, s = (a ++ String c b)%string /\ String.length a = k /\ pr c = true
    /\ find_last_of pr b = None.
Proof.
  revert k; induction s as [|c r IH]; intros k; [discriminate|].
  rewrite find_last_of_cons. destruct (find_last_of pr r) as [k'|] eqn:Er.
  - intros E. injection E as <-. destruct (IH k' eq_refl) as (a & c' & b & -> & <- & Hc & Hb).
    exists (String c a), c', b. repeat split; auto.
  - destruct (pr c) eqn:Ec; [|discriminate]. intros E. injection E as <-.
    exists EmptyString, c, r. repeat split; auto.
Qed.

Lemma str_length_app a b : String.length (a ++ b) = (String.length a + String.length b)%nat.
Proof. induction a as [|c a IH]; cbn; [reflexivity|]. rewrite IH. reflexivity. Qed.

Lemma str_app_assoc a b c : ((a ++ b) ++ c)%string = (a ++ (b ++ c))%string.
Proof. induction a as [|x a IH]; cbn; [reflexivity|]. rewrite IH. reflexivity. Qed.

Lemma substring_app a s n m :
  substring (String.length a + n) m (a ++ s) = substring n m s.
Proof. induction a as [|c a IH]; [reflexivity|]. cbn. exact IH. Qed.

Lemma substring_full s : substring 0 (String.length s) s = s.
Proof. induction s as [|c s IH]; [reflexivity|]. cbn. rewrite IH. reflexivity. Qed.

Lemma substr_from_app a s : substr_from (a ++ s) (String.length a) = s.
Proof.
  unfold substr_from. rewrite str_length_app.
  replace (String.length a + String.length s - String.length a)%nat with (String.length s) by lia.
  rewrite <- (Nat.add_0_r (String.length a)) at 1. rewrite substring_app. apply substring_full.
Qed.

Lemma substr_from_app_cons a c s : substr_from (a ++ String c s) (S (String.length a)) = s.
Proof.
  replace (a ++ String c s)%string with ((a ++ String c EmptyString) ++ s)%string.
  - replace (S (String.length a)) with (String.length (a ++ String c EmptyString)).
    + apply substr_from_app.
    + rewrite str_length_app. cbn. lia.
  - rewrite str_app_assoc. reflexivity.
Qed.

(** [Utils::extractFilename] returns a name with no '/' or '\\': the
    path is that name preceded either by nothing or by a directory part
    ending in a separator, and applying the function again changes
    nothing. *)
Theorem extractFilename_spec fullPath :
  let name := extractFilename fullPath in
  find_last_of is_path_sep name = None
  /\ (exists dir, fullPath = (dir ++ name)%string
       /\ (dir = EmptyString
           \/ exists d c, dir = (d ++ String c EmptyString)%string /\ is_path_sep c = true))
  /\ extractFilename name = name.
Proof.
  intros name.
  assert (Hn : find_last_of is_path_sep name = None).
  { unfold name, extractFilename.
    destruct (find_last_of is_path_sep fullPath) as [k|] eqn:E; [|exact E].
    destruct (find_last_of_some _ _ _ E) as (a & c & b & -> & <- & _ & Hb).
    rewrite substr_from_app_cons. exact Hb. }
  split; [exact Hn|]. split.
  - unfold name, extractFilename.
    destruct (find_last_of is_path_sep fullPath) as [k|] eqn:E.
    + destruct (find_last_of_some _ _ _ E) as (a & c & b & -> & <- & Hc & _).
      rewrite substr_from_app_cons. exists (a ++ String c EmptyString)%string.
      split; [rewrite str_app_assoc; reflexivity|]. right. eauto.
    + exists EmptyString. split; [reflexivity|]. left. reflexivity.
  - unfold extractFilename at 1. rewrite Hn. reflexivity.
Qed.

Lemma is_dot_nat c : is_dot c = Nat.eqb (nat_of_ascii c) 46.
Proof.
  unfold is_dot. destruct (Ascii.eqb_spec c "."%char) as [->|Hne]; [reflexivity|].
  symmetry. apply Nat.eqb_neq. intros H. apply Hne.
  rewrite <- (ascii_nat_embedding c), H. reflexivity.
Qed.

Lemma is_path_sep_nat c :
  is_path_sep c = (Nat.eqb (nat_of_ascii c) 47 || Nat.eqb (nat_of_ascii c) 92)%bool.
Proof.
  unfold is_path_sep.
  destruct (Ascii.eqb_spec c "/"%char) as [->|H1]; [reflexivity|].
  destruct (Ascii.eqb_spec c "\"%char) as [->|H2]; [reflexivity|].
  symmetry. apply orb_false_iff. split; apply Nat.eqb_neq; intros H;
    [apply H1 | apply H2]; rewrite <- (ascii_nat_embedding c), H; reflexivity.
Qed.

(** [tolower] changes only the letters A to Z, which are neither dots nor
    separators. *)
Lemma tolower_nat c :
  (65 <= nat_of_ascii c <= 90 -> nat_of_ascii (tolower c) = nat_of_ascii c + 32)%nat
  /\ (~ (65 <= nat_of_ascii c <= 90) -> tolower c = c)%nat.
Proof.
  unfold tolower. pose proof (nat_ascii_bounded c) as Hb.
  split; intros H.
  - replace ((65 <=? nat_of_ascii c)%nat && (nat_of_ascii c <=? 90)%nat) with true.
    + apply nat_of_ascii_of_nat_small. lia.
    + symmetry. apply andb_true_iff. rewrite !Nat.leb_le. lia.
  - replace ((65 <=? nat_of_ascii c)%nat && (nat_of_ascii c <=? 90)%nat) with false; [reflexivity|].
    symmetry. apply andb_false_iff. rewrite !Nat.leb_gt. lia.
Qed.

Lemma is_dot_tolower c : is_dot (tolower c) = is_dot c.
Proof.
  destruct (tolower_nat c) as [H1 H2].
  destruct (Nat.le_gt_cases 65 (nat_of_ascii c)); [destruct (Nat.le_gt_cases (nat_of_ascii c) 90)|].
  - rewrite !is_dot_nat, H1 by lia.
    transitivity false; [|symmetry]; apply Nat.eqb_neq; lia.
  - rewrite H2 by lia. reflexivity.
  - rewrite H2 by lia. reflexivity.
Qed.

Lemma is_path_sep_tolower c : is_path_sep (tolower c) = is_path_sep c.
Proof.
  destruct (tolower_nat c) as [H1 H2].
  destruct (Nat.le_gt_cases 65 (nat_of_ascii c)); [destruct (Nat.le_gt_cases (nat_of_ascii c) 90)|].
  - rewrite !is_path_sep_nat, H1 by lia.
    transitivity false; [|symmetry]; apply orb_false_iff; split; apply Nat.eqb_neq; lia.
  - rewrite H2 by lia. reflexivity.
  - rewrite H2 by lia. reflexivity.
Qed.

Lemma find_last_of_map pr f s :
  (forall c, pr (f c) = pr c) -> find_last_of pr (string_map f s) = find_last_of pr s.
Proof.
  intros Hf. induction s as [|c s IH]; [reflexivity|].
  cbn [string_map]. rewrite !find_last_of_cons, IH, Hf. reflexivity.
Qed.

(** [Utils::getExtension] returns "" for a name without a dot; otherwise
    it returns the last dot and everything after it, in lower case, even when
    that part holds a path separator or the dot begins the name. *)
Theorem getExtension_spec filename :
  (find_last_of is_dot filename = None -> getExtension filename = EmptyString)
  /\ (forall stem ext, find_last_of is_dot ext = None ->
        getExtension (stem ++ String "." ext) = String "." (string_map tolower ext)).
Proof.
  split.
  - intros H. unfold getExtension. rewrite H. reflexivity.
  - intros stem ext H. unfold getExtension.
    rewrite find_last_of_app, find_last_of_cons, H.
    change (is_dot "."%char) with true. cbn iota beta. rewrite Nat.add_0_r, substr_from_app. reflexivity.
Qed.

Lemma find_last_of_lt pr s k : find_last_of pr s = Some k -> (k < String.length s)%nat.
Proof.
  intros E. destruct (find_last_of_some _ _ _ E) as (a & c & b & -> & <- & _ & _).
  rewrite str_length_app. cbn. lia.
Qed.

Lemma generateOutputFilename_nonempty user orig : generateOutputFilename user orig <> EmptyString.
Proof.
  unfold generateOutputFilename.
  destruct (String.eqb_spec user EmptyString); [discriminate|].
  destruct (hasExtension user); [exact n|].
  destruct user; [contradiction|discriminate].
Qed.

(** With a non-empty user path and an original name whose last dot is
    followed by neither a dot nor a separator, [generateOutputFilename]
    returns a path that has an extension; passing that path back as the user
    path returns it unchanged, whatever the original name. *)
Theorem generateOutputFilename_stable user stem ext :
  user <> EmptyString ->
  find_last_of is_dot ext = None -> find_last_of is_path_sep ext = None ->
  let out := generateOutputFilename user (stem ++ String "." ext) in
  hasExtension out = true /\ forall orig, generateOutputFilename out orig = out.
Proof.
  intros Hu Hd Hs out.
  assert (Hext : hasExtension out = true).
  { unfold out, generateOutputFilename.
    destruct (String.eqb_spec user EmptyString); [contradiction|].
    destruct (hasExtension user) eqn:Eh; [exact Eh|].
    rewrite (proj2 (getExtension_spec (stem ++ String "." ext)) stem ext Hd).
    unfold hasExtension. rewrite find_last_of_app, find_last_of_cons.
    rewrite find_last_of_map by apply is_dot_tolower. rewrite Hd.
    change (is_dot "."%char) with true. cbn iota beta.
    rewrite find_last_of_app, find_last_of_cons.
    rewrite find_last_of_map by apply is_path_sep_tolower. rewrite Hs.
    change (is_path_sep "."%char) with false. cbn iota beta.
    destruct (find_last_of is_path_sep user) as [k|] eqn:Ek; [|reflexivity].
    apply Nat.ltb_lt. apply find_last_of_lt in Ek. lia. }
  split; [exact Hext|]. intros orig.
  unfold generateOutputFilename at 1. rewrite Hext.
  destruct (String.eqb_spec out EmptyString) as [E|]; [|reflexivity].
  exfalso. exact (generateOutputFilename_nonempty _ _ E).
Qed.

(** ** Further properties: the header codec *)

Lemma sub_firstn l k a n : (a + n <= k)%nat -> sub (firstn k l) a n = sub l a n.
Proof.
  intros H. unfold sub. rewrite skipn_firstn_comm, firstn_firstn.
  f_equal. lia.
Qed.

(** [deserializeHeader] fails with "Invalid header size" on a buffer
    shorter than 276 bytes and otherwise reads only its first 276 bytes. *)
Theorem deserializeHeader_prefix buffer :
  deserializeHeader buffer
  = if (List.length buffer <? 276)%nat then Err InvalidHeaderSize
    else deserializeHeader (firstn 276 buffer).
Proof.
  unfold deserializeHeader. rewrite sizeof_StegoHeader_eq.
  destruct (Nat.ltb_spec (List.length buffer) 276) as [Hl|Hl].
  - replace (Z.of_nat (List.length buffer) <? 276) with true by (symmetry; apply Z.ltb_lt; lia).
    reflexivity.
  - replace (Z.of_nat (List.length buffer) <? 276) with false by (symmetry; apply Z.ltb_ge; lia).
    rewrite length_firstn, Nat.min_l by exact Hl.
    replace (Z.of_nat 276 <? 276) with false by reflexivity.
    rewrite !sub_firstn by (unfold MAX_FILENAME_LENGTH; lia). reflexivity.
Qed.

(** Serializing a header whose members fit their C types and whose
    [filename] array has 256 bytes, then deserializing the bytes, returns the
    same header, whatever the padding bytes. *)
Theorem serialize_deserialize_header pad h :
  header_in_range h -> List.length (filename h) = MAX_FILENAME_LENGTH ->
  deserializeHeader (serializeHeader pad h) = Ok h.
Proof.
  intros Hr Hl. rewrite deserialize_serialize by exact Hr.
  rewrite filename_array_id by exact Hl. destruct h; reflexivity.
Qed.

Lemma byte_of_Z_u8 b v : byte_of_Z (u8 b + 256 * v) = b.
Proof.
  unfold byte_of_Z. pose proof (u8_range b).
  replace ((u8 b + 256 * v) mod 256) with (u8 b).
  2:{ rewrite (Z.mul_comm 256 v), Z.mod_add by lia. rewrite Z.mod_small; lia. }
  unfold u8. rewrite N2Z.id, Byte.of_to_N. reflexivity.
Qed.

Lemma le_bytes_le_value l : le_bytes (List.length l) (le_value l) = l.
Proof.
  induction l as [|b l IH]; [reflexivity|].
  cbn [List.length le_bytes le_value]. rewrite byte_of_Z_u8. f_equal.
  replace ((u8 b + 256 * le_value l) / 256) with (le_value l); [exact IH|].
  pose proof (u8_range b).
  rewrite (Z.mul_comm 256), Z.add_comm, Z.div_add_l by lia.
  rewrite Z.div_small by lia. lia.
Qed.

Lemma firstn_app_skipn {A} (s : list A) n m :
  firstn n s ++ firstn m (skipn n s) = firstn (n + m) s.
Proof.
  revert s; induction n as [|n IH]; intros s; [reflexivity|].
  destruct s as [|x s]; [destruct m; reflexivity|]. cbn. f_equal. apply IH.
Qed.

Lemma sub_concat l a n b m k :
  b = (a + n)%nat -> k = (n + m)%nat -> sub l a n ++ sub l b m = sub l a k.
Proof.
  intros -> ->. unfold sub. rewrite Nat.add_comm, <- skipn_skipn. apply firstn_app_skipn.
Qed.

Lemma sub_two l a d : (a + 2 <= List.length l)%nat -> sub l a 2 = [nth a l d; nth (S a) l d].
Proof.
  revert l; induction a as [|a IH]; intros l H.
  - destruct l as [|x [|y l]]; cbn in H; try lia. reflexivity.
  - destruct l as [|x l]; cbn in H; [lia|]. unfold sub in *. cbn [skipn nth]. apply IH. lia.
Qed.

Lemma le_bytes_sub l a n :
  (a + n <= List.length l)%nat -> le_bytes n (le_value (sub l a n)) = sub l a n.
Proof.
  intros H. rewrite <- (sub_length l a n H) at 1. apply le_bytes_le_value.
Qed.

(** Every 276-byte buffer deserializes to a header, and serializing that
    header with the buffer's own padding bytes (offsets 6, 7, 270, 271)
    gives back the buffer. *)
Theorem deserialize_serialize_window w :
  List.length w = 276%nat ->
  exists h, deserializeHeader w = Ok h
    /\ serializeHeader (fun i => nth (Z.to_nat i) w Byte.x00) h = w.
Proof.
  intros Hw. unfold deserializeHeader. rewrite sizeof_StegoHeader_eq, Hw.
  replace (Z.of_nat 276 <? 276) with false by reflexivity.
  eexists. split; [reflexivity|].
  unfold serializeHeader. cbn [magic version hiddenFileSize filenameLength filename checksum].
  rewrite !le_bytes_sub by lia.
  rewrite filename_array_id by (apply sub_length; unfold MAX_FILENAME_LENGTH; lia).
  change (Z.to_nat 6) with 6%nat.
  change (Z.to_nat 7) with 7%nat.
  change (Z.to_nat 270) with 270%nat.
  change (Z.to_nat 271) with 271%nat.
  rewrite <- (sub_two w 6 Byte.x00) by lia.
  rewrite <- (sub_two w 270 Byte.x00) by lia.
  unfold MAX_FILENAME_LENGTH.
  rewrite (sub_concat w 270 2 272 4 6) by reflexivity.
  rewrite (sub_concat w 14 256 270 6 262) by reflexivity.
  rewrite (sub_concat w 12 2 14 262 264) by reflexivity.
  rewrite (sub_concat w 8 4 12 264 268) by reflexivity.
  rewrite (sub_concat w 6 2 8 268 270) by reflexivity.
  rewrite (sub_concat w 4 2 6 270 272) by reflexivity.
  rewrite (sub_concat w 0 4 4 272 276) by reflexivity.
  apply sub_exact. exact Hw.
Qed.

Lemma firstn_list_set k l i v :
  (k <= i < List.length l)%nat -> firstn k (list_set l i v) = firstn k l.
Proof.
  intros H. unfold list_set. rewrite firstn_app, length_firstn.
  replace (k - Nat.min i (List.length l))%nat with 0%nat by lia.
  rewrite firstn_O, app_nil_r, firstn_firstn. f_equal. lia.
Qed.

(** The checksum reads only the first [min(filenameLength, 256)] bytes of
    [filename]: changing a byte at a later index of the array changes neither
    [calculateChecksum] nor [validate]. *)
Theorem checksum_ignores_name_tail h i v :
  (Nat.min (Z.to_nat (filenameLength h)) MAX_FILENAME_LENGTH <= i
   < List.length (filename h))%nat ->
  let h' := mkStegoHeader (magic h) (version h) (hiddenFileSize h) (filenameLength h)
              (list_set (filename h) i v) (checksum h) in
  calculateChecksum h' = calculateChecksum h /\ validate h' = validate h.
Proof.
  intros Hi h'.
  assert (Hc : calculateChecksum h' = calculateChecksum h).
  { unfold calculateChecksum. cbn [magic version hiddenFileSize filenameLength filename h'].
    rewrite firstn_list_set by exact Hi. reflexivity. }
  split; [exact Hc|]. unfold validate. rewrite Hc. reflexivity.
Qed.

(** ** Further properties: files, truncation and the scan *)





(** Extraction of a composite [host ++ header ++ payload] whose tail windows
    are all rejected, for any payload length. *)
Lemma extract_composite_mod pad hp hostData hiddenData out2 :
  (1 <= List.length hostData)%nat ->
  Z.of_nat (List.length hostData + 276 + List.length hiddenData) < 2 ^ 63 ->
  ~ In Byte.x00 (list_byte_of_string (extractFilename hp)) ->
  let header := createHeader hp (Z.of_nat (List.length hiddenData)) in
  let out := hostData ++ serializeHeader pad header ++ hiddenData in
  tail_windows_rejected out (List.length hostData) = true ->
  extractData out out2
  = Ok (header, generateOutputFilename out2 (substring 0 255 (extractFilename hp)),
        firstn (Z.to_nat (Z.of_nat (List.length hiddenData) mod 2 ^ 32)) hiddenData).
Proof.
  intros Hh1 Hbig Hnul header out Htail.
  assert (Hsl : List.length (serializeHeader pad header) = 276%nat).
  { pose proof (serializeHeader_length pad header). rewrite sizeof_StegoHeader_eq in H. lia. }
  assert (Hlen : List.length out = (List.length hostData + 276 + List.length hiddenData)%nat).
  { unfold out. rewrite !length_app, Hsl. lia. }
  set (lh := List.length hostData) in *.
  assert (Hwin : sub out lh 276 = serializeHeader pad header).
  { unfold out. rewrite sub_app_r by lia. rewrite Nat.sub_diag.
    rewrite sub_app_l by lia. apply sub_exact. exact Hsl. }
  assert (Hdes : deserializeHeader (sub out lh 276) = Ok header).
  { rewrite Hwin. apply deserialize_createHeader. }
  assert (Hok : window_ok out lh = true).
  { rewrite (window_ok_validate out lh header Hdes). apply validate_createHeader. }
  assert (Hsc : scan out (List.length out - 276) = Ok (Some (Z.of_nat lh))).
  { destruct (scan_outcome_holds out (List.length out - 276) ltac:(lia))
      as [Hs Hall | i Hs Hi Hoki Hmax].
    - rewrite Hall in Hok by lia. discriminate.
    - rewrite Hs. destruct (Nat.lt_total i lh) as [Hlt | [Heq | Hgt]].
      + rewrite Hmax in Hok by lia. discriminate.
      + now subst.
      + rewrite (tail_windows_rejected_spec out lh Htail i) in Hoki by lia. discriminate. }
  destruct (extractData_found out out2 lh ltac:(lia) Hsc ltac:(lia) Hok)
    as (h & Hh & _ & Ex).
  rewrite Hdes in Hh. injection Hh as <-.
  set (L := Z.of_nat (List.length hiddenData)) in *.
  assert (HM : 0 <= L mod 2 ^ 32 <= L).
  { split; [apply Z.mod_pos_bound; lia|apply Z.mod_le; lia]. }
  assert (Hsz : hiddenFileSize header = L mod 2 ^ 32) by reflexivity.
  rewrite Ex, Hsz.
  rewrite Z.mod_small by lia.
  replace (_ >? _) with false by (symmetry; rewrite Z.gtb_ltb; apply Z.ltb_ge; lia).
  rewrite vec_range_in by lia. cbn [bind].
  replace (Z.to_nat (Z.of_nat lh + 276)) with (lh + 276)%nat by lia.
  replace (Z.to_nat (Z.of_nat lh + 276 + L mod 2 ^ 32 - (Z.of_nat lh + 276)))
    with (Z.to_nat (L mod 2 ^ 32)) by lia.
  assert (Hpay : sub out (lh + 276) (Z.to_nat (L mod 2 ^ 32))
                 = firstn (Z.to_nat (L mod 2 ^ 32)) hiddenData).
  { unfold out. rewrite sub_app_r by lia. rewrite sub_app_r by (rewrite Hsl; lia).
    rewrite Hsl. fold lh. replace (lh + 276 - lh - 276)%nat with 0%nat by lia. reflexivity. }
  rewrite Hpay.
  (* the name: as in [extract_composite] *)
  destruct (createHeader_filename hp L Hnul) as (Hfn & _ & _).
  fold header in Hfn.
  set (A := firstn 255 (list_byte_of_string (extractFilename hp))) in *.
  assert (HAnul : ~ In Byte.x00 A).
  { intros HI. apply Hnul. unfold A in HI.
    rewrite <- (firstn_skipn 255 (list_byte_of_string (extractFilename hp))).
    apply in_or_app. left. exact HI. }
  assert (Hcs : c_string (filename header) = Ok (substring 0 255 (extractFilename hp))).
  { unfold c_string. rewrite Hfn.
    replace (existsb (Byte.eqb Byte.x00) (A ++ Byte.x00 :: repeat Byte.x00 _)) with true.
    - rewrite take_until_nul_app by exact HAnul. unfold A.
      replace (firstn 255 (list_byte_of_string (extractFilename hp)))
        with (list_byte_of_string (substring 0 255 (extractFilename hp)))
        by (rewrite bytes_substring; reflexivity).
      rewrite string_of_list_byte_of_string. reflexivity.
    - symmetry. apply existsb_exists. exists Byte.x00. split.
      + apply in_or_app. right. left. reflexivity.
      + reflexivity. }
  rewrite Hcs. reflexivity.
Qed.

(** [createHeader] stores the payload size cast to [uint32_t], i.e. modulo
    2^32.  After a successful embed, extraction returns the first
    [size mod 2^32] bytes of the payload (under the same scan and name
    conditions as the round trip). *)
Theorem embed_size_field_mod_2_32 fs pad hiddenPath hostPath outPath outPath2 p out
    hostData hiddenData :
  hideFile fs pad hiddenPath hostPath outPath = Ok (p, out) ->
  fs hostPath = Some hostData -> fs hiddenPath = Some hiddenData ->
  Z.of_nat (List.length out) < 2 ^ 63 ->
  ~ In Byte.x00 (list_byte_of_string (extractFilename hiddenPath)) ->
  tail_windows_rejected out (List.length hostData) = true ->
  let L := Z.of_nat (List.length hiddenData) in
  hiddenFileSize (createHeader hiddenPath L) = L mod 2 ^ 32
  /\ extractData out outPath2
     = Ok (createHeader hiddenPath L,
           generateOutputFilename outPath2 (substring 0 255 (extractFilename hiddenPath)),
           firstn (Z.to_nat (L mod 2 ^ 32)) hiddenData).
Proof.
  intros E Hho Hhi Hbig Hnul Htail. cbv zeta.
  destruct (hideFile_inv fs pad hiddenPath hostPath outPath p out E)
    as (hostData' & hiddenData' & cap & Hho' & Hhi' & Hv & _ & Hout).
  rewrite Hho in Hho'. injection Hho' as <-. rewrite Hhi in Hhi'. injection Hhi' as <-.
  split; [reflexivity|].
  assert (Hmin : 10240 <= Z.of_nat (List.length hostData)).
  { unfold validateAndCalculateMaxSize, throw in Hv.
    destruct (Z.ltb_spec (Z.of_nat (List.length hostData)) MIN_HOST_SIZE); [discriminate|].
    unfold MIN_HOST_SIZE in *. lia. }
  subst out.
  assert (Hsl : forall h, List.length (serializeHeader pad h) = 276%nat).
  { intros h. pose proof (serializeHeader_length pad h).
    rewrite sizeof_StegoHeader_eq in H. lia. }
  rewrite !length_app, Hsl in Hbig.
  apply (extract_composite_mod pad hiddenPath hostData hiddenData outPath2); [lia | lia | exact Hnul | exact Htail].
Qed.

(** The scan's test on a window does not depend on bytes before it. *)
Lemma window_ok_shift pre data j :
  window_ok (pre ++ data) (List.length pre + j) = window_ok data j.
Proof.
  unfold window_ok. rewrite sub_app_r by lia.
  replace (List.length pre + j - List.length pre)%nat with j by lia. reflexivity.
Qed.

(** Bytes put in front of a stego file in which the scan finds a header do
    not change what extraction returns (for files below 2^63 bytes). *)
Theorem extract_ignores_prefix pre data outputFilePath i :
  scan data (List.length data - 276) = Ok (Some (Z.of_nat i)) ->
  Z.of_nat (List.length pre + List.length data) < 2 ^ 63 ->
  extractData (pre ++ data) outputFilePath = extractData data outputFilePath.
Proof.
  intros Hs Hbig.
  assert (Hlen : (276 <= List.length data)%nat).
  { destruct (Nat.le_gt_cases 276 (List.length data)) as [H|H]; [exact H|].
    replace (List.length data - 276)%nat with 0%nat in Hs by lia. discriminate. }
  destruct (scan_in_range data i Hlen Hs) as [Hi Hok].
  set (lp := List.length pre).
  assert (Hmax : forall j, (i < j <= List.length data - 276)%nat -> window_ok data j = false).
  { destruct (scan_outcome_holds data (List.length data - 276) ltac:(lia))
      as [Hs' _ | i' Hs' Hi' Hok' Hmax'].
    - rewrite Hs in Hs'. discriminate.
    - rewrite Hs in Hs'. injection Hs' as Hs'. apply Nat2Z.inj in Hs'. subst i'. exact Hmax'. }
  assert (Hl2 : List.length (pre ++ data) = (lp + List.length data)%nat) by apply length_app.
  assert (Hok2 : window_ok (pre ++ data) (lp + i) = true) by (rewrite window_ok_shift; exact Hok).
  assert (Hs2 : scan (pre ++ data) (List.length (pre ++ data) - 276)
                = Ok (Some (Z.of_nat (lp + i)))).
  { destruct (scan_outcome_holds (pre ++ data) (List.length (pre ++ data) - 276) ltac:(lia))
      as [Hn Hall | i' Hn Hi' Hok' Hmax'].
    - rewrite Hall in Hok2 by lia. discriminate.
    - rewrite Hn. destruct (Nat.lt_total i' (lp + i)) as [Hlt | [Heq | Hgt]].
      + rewrite Hmax' in Hok2 by lia. discriminate.
      + now subst.
      + replace i' with (lp + (i' - lp))%nat in Hok' by lia.
        rewrite window_ok_shift, Hmax in Hok' by lia. discriminate. }
  destruct (extractData_found data outputFilePath i Hlen Hs ltac:(lia) Hok) as (h & Hh & _ & Ex).
  destruct (extractData_found (pre ++ data) outputFilePath (lp + i) ltac:(lia) Hs2 ltac:(lia) Hok2)
    as (h2 & Hh2 & _ & Ex2).
  assert (Hw : sub (pre ++ data) (lp + i) 276 = sub data i 276).
  { rewrite sub_app_r by lia. f_equal. lia. }
  rewrite Hw, Hh in Hh2. injection Hh2 as <-.
  rewrite Ex, Ex2. pose proof (deserialize_size_range _ _ Hh) as Hsz.
  rewrite !Z.mod_small by lia.
  rewrite Hl2.
  destruct (Z.gtb_spec (Z.of_nat i + 276 + hiddenFileSize h) (Z.of_nat (List.length data))) as [Hg|Hg].
  - replace (Z.of_nat (lp + i) + 276 + hiddenFileSize h >? Z.of_nat (lp + List.length data))
      with true by (symmetry; apply Z.gtb_lt; lia). reflexivity.
  - replace (Z.of_nat (lp + i) + 276 + hiddenFileSize h >? Z.of_nat (lp + List.length data))
      with false by (symmetry; rewrite Z.gtb_ltb; apply Z.ltb_ge; lia).
    rewrite !vec_range_in by (rewrite ?length_app; lia).
    replace (Z.to_nat (Z.of_nat (lp + i) + 276)) with (lp + (i + 276))%nat by lia.
    replace (Z.to_nat (Z.of_nat (lp + i) + 276 + hiddenFileSize h - (Z.of_nat (lp + i) + 276)))
      with (Z.to_nat (Z.of_nat i + 276 + hiddenFileSize h - (Z.of_nat i + 276))) by lia.
    replace (Z.to_nat (Z.of_nat i + 276)) with (i + 276)%nat by lia.
    rewrite sub_app_r by lia.
    replace (lp + (i + 276) - List.length pre)%nat with (i + 276)%nat by (unfold lp; lia).
    reflexivity.
Qed.

(** ** Further properties: the command line *)

Lemma writeFile_spec fs writable p d fs' :
  writeFile fs writable p d = Ok fs' ->
  writable p = true /\ fs' p = Some d /\ forall q, q <> p -> fs' q = fs q.
Proof.
  unfold writeFile, throw. destruct (writable p); [|discriminate].
  intros E. injection E as <-. rewrite String.eqb_refl. split; [reflexivity|]. split; [reflexivity|].
  intros q Hq. destruct (String.eqb_spec q p); [contradiction|reflexivity].
Qed.

(** [main] exits with status 1 and leaves every file unchanged (a failed
    write is modelled as writing nothing), or exits
    with 0 after running [hideFile] on [encode cover secret out] (the secret
    hidden in the cover) or [extractFile] on [decode stego out], with exactly
    these argument counts, and writing exactly one file: the output path
    computed by that operation. *)
Theorem main_outcomes fs writable pad argv :
  let r := main fs writable pad argv in
  (fst r = 1 /\ snd r = fs)
  \/ (fst r = 0
      /\ exists prog p data,
           ((exists coverImage secretFile outputImage,
               argv = [prog; "encode"; coverImage; secretFile; outputImage]
               /\ hideFile fs pad secretFile coverImage outputImage = Ok (p, data))
            \/ (exists stegoImage outputFile h,
                  argv = [prog; "decode"; stegoImage; outputFile]
                  /\ extractFile fs stegoImage outputFile = Ok (h, p, data)))
           /\ writable p = true /\ snd r p = Some data
           /\ forall q, q <> p -> snd r q = fs q)%string.
Proof.
  unfold main. cbv zeta.
  destruct argv as [|prog [|mode args]]; [left; auto|left; auto|].
  destruct (String.eqb_spec mode "encode") as [->|Hne1].
  - destruct args as [|c [|s [|o [|x rest]]]]; try (left; auto; fail).
    unfold hideFileWrite.
    destruct (hideFile fs pad s c o) as [[p d]|e] eqn:Eh; cbn [bind fst snd]; [|left; auto].
    destruct (writeFile fs writable p d) as [fs'|e] eqn:Ew; [|left; auto].
    destruct (writeFile_spec _ _ _ _ _ Ew) as (Hw & Hp & Hq).
    right. split; [reflexivity|]. exists prog, p, d. split; [left; eauto 7|]. auto.
  - destruct (String.eqb_spec mode "decode") as [->|Hne2]; [|left; auto].
    destruct args as [|st [|o [|x rest]]]; try (left; auto; fail).
    unfold extractFileWrite.
    destruct (extractFile fs st o) as [[[h p] d]|e] eqn:Ex; cbn [bind fst snd]; [|left; auto].
    destruct (writeFile fs writable p d) as [fs'|e] eqn:Ew; [|left; auto].
    destruct (writeFile_spec _ _ _ _ _ Ew) as (Hw & Hp & Hq).
    right. split; [reflexivity|]. exists prog, p, d. split; [right; eauto 7|]. auto.
Qed.

(** Running [main] with [encode cover secret out] and then with [decode] on
    the written stego file exits with 0 both times and writes the secret
    file's bytes to the extraction path, under the conditions of the
    round trip. *)
Theorem main_encode_decode_roundtrip fs writable pad prog coverImage secretFile outputImage
    outputFile hostData hiddenData :
  fs coverImage = Some hostData -> fs secretFile = Some hiddenData ->
  coverImage <> EmptyString -> secretFile <> EmptyString ->
  MIN_HOST_SIZE <= Z.of_nat (List.length hostData) ->
  Z.of_nat (List.length hiddenData)
    <= maxHiddenBase (Z.of_nat (List.length hostData)) - sizeof_StegoHeader ->
  Z.of_nat (List.length hiddenData) < 2 ^ 32 ->
  Z.of_nat (List.length hostData + 276 + List.length hiddenData) < 2 ^ 63 ->
  ~ In Byte.x00 (list_byte_of_string (extractFilename secretFile)) ->
  tail_windows_rejected
    (hostData ++ serializeHeader pad
                  (createHeader secretFile (Z.of_nat (List.length hiddenData)))
              ++ hiddenData) (List.length hostData) = true ->
  let stegoImage := generateOutputFilename outputImage (extractFilename coverImage) in
  let extracted :=
    generateOutputFilename outputFile (substring 0 255 (extractFilename secretFile)) in
  writable stegoImage = true -> writable extracted = true ->
  let r1 := main fs writable pad [prog; "encode"; coverImage; secretFile; outputImage]%string in
  let r2 := main (snd r1) writable pad [prog; "decode"; stegoImage; outputFile]%string in
  fst r1 = 0 /\ fst r2 = 0 /\ snd r2 extracted = Some hiddenData.
Proof.
  intros Hho Hhi Hc Hs Hmin Hcap Hp32 Hbig Hnul Htail stegoImage extracted Hw1 Hw2 r1 r2.
  set (out := hostData ++ serializeHeader pad
                (createHeader secretFile (Z.of_nat (List.length hiddenData))) ++ hiddenData) in *.
  assert (Hhide : hideFile fs pad secretFile coverImage outputImage = Ok (stegoImage, out)).
  { apply (hideFile_ok fs pad secretFile coverImage outputImage hostData hiddenData
             (maxHiddenBase (Z.of_nat (List.length hostData)) - sizeof_StegoHeader));
      auto.
    apply validate_size_ok; [exact Hmin | lia | exact Hcap]. }
  set (fs1 := fun q => if String.eqb q stegoImage then Some out else fs q).
  assert (Hr1 : r1 = (0, fs1)).
  { unfold r1, main, hideFileWrite. cbv zeta. cbn [String.eqb]. rewrite Hhide. cbn [bind fst snd].
    unfold writeFile. rewrite Hw1. reflexivity. }
  assert (Hextract : extractFile fs1 stegoImage outputFile = Ok (createHeader secretFile
            (Z.of_nat (List.length hiddenData)), extracted, hiddenData)).
  { unfold extractFile, validateFileAccess, readFile, fileExists, fs1, bind.
    rewrite String.eqb_refl.
    destruct (String.eqb_spec stegoImage EmptyString) as [E|_].
    - exfalso. exact (generateOutputFilename_nonempty _ _ E).
    - destruct (extract_composite pad secretFile hostData hiddenData outputFile
                  ltac:(unfold MIN_HOST_SIZE in Hmin; lia) Hp32 Hbig Hnul Htail) as (Ex & _).
      exact Ex. }
  assert (Hr2 : r2 = (0, fun q => if String.eqb q extracted then Some hiddenData else fs1 q)).
  { unfold r2. rewrite Hr1. unfold main, extractFileWrite. cbv zeta. cbn [String.eqb snd]. rewrite Hextract.
    cbn [bind fst snd]. unfold writeFile. rewrite Hw2. reflexivity. }
  rewrite Hr2, Hr1. cbn [fst snd]. rewrite String.eqb_refl. auto.
Qed.

(** * Concrete runs *)

(** An equation between closed terms, checked by evaluation in the virtual
    machine without building the normal forms. *)
Ltac vm_refl := match goal with |- ?a = ?b => exact (@eq_refl _ a <: a = b) end.

(** Discharging a hypothesis on concrete data by evaluation. *)
Ltac concrete_hyp :=
  lazymatch goal with
  | |- _ <= _ < _ => split; [apply Z.leb_le | apply Z.ltb_lt]; vm_compute; reflexivity
  | |- (_ <= _)%nat => apply Nat.leb_le; vm_compute; reflexivity
  | |- _ <= _ => apply Z.leb_le; vm_compute; reflexivity
  | |- _ < _ => apply Z.ltb_lt; vm_compute; reflexivity
  | |- ~ In _ _ =>
      intros H; vm_compute in H; repeat (destruct H as [H|H]; [discriminate H|]); exact H
  | |- _ <> _ => discriminate
  | |- _ = _ => vm_refl
  end.

(** Counterexample to claim C1: the payload is itself a serialized valid
    header (276 bytes, well within the capacity 8428 of a 10240-byte host).
    The backward scan meets it before the header written by the embed, and
    extraction returns an empty payload named "extracted_a". *)
Lemma roundtrip_inner_header_counterexample :
  validateAndCalculateMaxSize 276 10240 = Ok 8428
  /\ hideFile fs_forged pad0 "secret.bin" "cover.bin" "out" = Ok ("out.bin"%string, forged_out)
  /\ extractData forged_out "" = Ok (createHeader "a" 0, "extracted_a"%string, [])
  /\ List.length forged_payload = 276%nat.
Proof. split; [|split; [|split]]; vm_refl. Qed.

(** Counterexample to claim C2: the spec's example output is 20281 bytes
    long, not 20277. *)
Lemma output_length_counterexample :
  hideFile fs_hello pad0 "dir/hello.txt" "cover.bin" "out" = Ok ("out.bin"%string, hello_out)
  /\ Z.of_nat (List.length hello_out) = 20281
  /\ sizeof_StegoHeader = 276.
Proof. split; [|split]; vm_refl. Qed.

(** Counterexample to claim C4: for the host size 1324588125697307 the
    exact capacity floor(h * 0.85) - 276 is 1125899906842434, yet a payload
    one byte larger is accepted, because the double product rounds up past
    an integer. *)
Lemma capacity_float_counterexample :
  let h := 1324588125697307 in
  let cap := h * 85 / 100 - sizeof_StegoHeader in
  cap = 1125899906842434 /\ validateAndCalculateMaxSize (cap + 1) h = Ok (cap + 1).
Proof. split; vm_refl. Qed.

(** Counterexample to claim C7: a 273-byte file is at least 272 bytes long
    but extraction rejects it as too small. *)
Lemma too_small_threshold_counterexample :
  extractData (zeros 273) "" = Err FileTooSmall /\ (272 <= List.length (zeros 273))%nat.
Proof. split; [vm_refl | apply Nat.leb_le; vm_refl]. Qed.

(** Counterexample to claim C9: the output path "out" has no extension,
    but embedding into "pic.PNG" writes "out.png" (the extension is lower
    cased); the empty output path also has no extension, but embedding writes
    "extracted_pic.PNG". *)
Lemma output_path_counterexample :
  hideFile fs_upper pad0 "s.txt" "pic.PNG" "out" = Ok ("out.png"%string, upper_out)
  /\ hideFile fs_upper pad0 "s.txt" "pic.PNG" "" = Ok ("extracted_pic.PNG"%string, upper_out).
Proof. split; vm_refl. Qed.

(** Claim C1 at the spec's example: "hello" hidden as "dir/hello.txt" in
    a 20000-byte host. *)
Lemma embed_extract_roundtrip_witness :
  let out := zeros 20000
             ++ serializeHeader pad0 (createHeader "dir/hello.txt"
                  (Z.of_nat (List.length (list_byte_of_string "hello"))))
             ++ list_byte_of_string "hello" in
  let name := substring 0 255 (extractFilename "dir/hello.txt") in
  hideFile fs_hello pad0 "dir/hello.txt" "cover.bin" "out"
    = Ok (generateOutputFilename "out" (extractFilename "cover.bin"), out)
  /\ exists h,
       extractData out "res" = Ok (h, generateOutputFilename "res" name, list_byte_of_string "hello")
       /\ firstn (Z.to_nat (filenameLength h)) (filename h) = list_byte_of_string name
       /\ c_string (filename h) = Ok name.
Proof.
  refine (embed_extract_roundtrip fs_hello pad0 "dir/hello.txt" "cover.bin" "out" "res"
            (zeros 20000) (list_byte_of_string "hello") _ _ _ _ _ _ _ _ _ _); concrete_hyp.
Defined.

(** Claim C2 at the spec's example. *)
Lemma embed_output_length_witness :
  sizeof_StegoHeader = 276
  /\ member_offsets 0 StegoHeader_members = [0; 4; 8; 12; 14; 272]
  /\ (forall pad' h, List.length (serializeHeader pad' h) = 276%nat
        /\ sub (serializeHeader pad' h) 6 2 = [pad' 6; pad' 7]
        /\ sub (serializeHeader pad' h) 270 2 = [pad' 270; pad' 271])
  /\ exists hostData hiddenData,
       fs_hello "cover.bin"%string = Some hostData
       /\ fs_hello "dir/hello.txt"%string = Some hiddenData
       /\ List.length hello_out = (List.length hostData + 276 + List.length hiddenData)%nat.
Proof.
  apply (embed_output_length fs_hello pad0 "dir/hello.txt" "cover.bin" "out" "out.bin" hello_out).
  concrete_hyp.
Defined.

(** Claim C3 on the output of the spec's example. *)
Lemma scan_backward_first_valid_witness :
  let n := (List.length hello_out - 276)%nat in
  (forall i, scan hello_out n = Ok (Some (Z.of_nat i)) <->
     (1 <= i <= n)%nat /\ window_ok hello_out i = true
     /\ (forall j, (i < j <= n)%nat -> window_ok hello_out j = false))
  /\ (scan hello_out n = Ok None <-> forall j, (1 <= j <= n)%nat -> window_ok hello_out j = false)
  /\ (extractData hello_out "" = Err NoHiddenData
      <-> forall j, (1 <= j <= n)%nat -> window_ok hello_out j = false).
Proof. apply (scan_backward_first_valid hello_out ""). concrete_hyp. Defined.

(** Claim C4 at a 20000-byte host: the capacity is 16724 bytes. *)
Lemma capacity_boundary_witness :
  maxHiddenBase 20000 - sizeof_StegoHeader = 16724
  /\ let cap := maxHiddenBase 20000 - sizeof_StegoHeader in
     0 < cap
     /\ validateAndCalculateMaxSize cap 20000 = Ok cap
     /\ validateAndCalculateMaxSize (cap + 1) 20000 = Err SizeExceeds
     /\ (forall s, s <= cap -> validateAndCalculateMaxSize s 20000 = Ok cap)
     /\ (forall s, cap < s -> validateAndCalculateMaxSize s 20000 = Err SizeExceeds)
     /\ (forall h' s, h' < MIN_HOST_SIZE ->
           validateAndCalculateMaxSize s h' = Err SizeHostTooSmall).
Proof. split; [vm_refl|]. apply (capacity_boundary 20000). concrete_hyp. Defined.

(** Claim C5 at the header built for the path "a". *)
Lemma validate_checksum_equation_witness :
  let h := createHeader "a" 0 in
  (validate h = true <->
   magic h = MAGIC_SIGNATURE /\
   checksum h = (magic h + version h + hiddenFileSize h + filenameLength h
                 + sum_u8 (firstn (Z.to_nat (filenameLength h)) (filename h))) mod 2 ^ 32)
  /\ (forall path size,
        let b := createHeader path size in
        List.length (filename b) = MAX_FILENAME_LENGTH /\ validate b = true /\
        magic b = MAGIC_SIGNATURE /\
        checksum b = (magic b + version b + hiddenFileSize b + filenameLength b
                      + sum_u8 (firstn (Z.to_nat (filenameLength b)) (filename b))) mod 2 ^ 32).
Proof. apply (validate_checksum_equation (createHeader "a" 0)). concrete_hyp. Defined.

(** Claim C6 on the output of the spec's example. *)
Lemma extract_size_check_witness :
  extractData hello_out "" <> Err IteratorOutOfRange
  /\ forall i h,
     (276 <= List.length hello_out)%nat ->
     scan hello_out (List.length hello_out - 276) = Ok (Some (Z.of_nat i)) ->
     deserializeHeader (sub hello_out i 276) = Ok h ->
     (Z.of_nat (List.length hello_out) < Z.of_nat i + 276 + hiddenFileSize h ->
      extractData hello_out "" = Err SizeMismatch)
     /\ (Z.of_nat i + 276 + hiddenFileSize h <= Z.of_nat (List.length hello_out) ->
         extractData hello_out "" =
         (name <- c_string (filename h) ;;
          Ok (h, generateOutputFilename "" name,
              sub hello_out (i + 276) (Z.to_nat (hiddenFileSize h))))).
Proof. apply (extract_size_check hello_out ""). concrete_hyp. Defined.

(** Claim C8 on the output of the spec's example. *)
Lemma scan_requires_magic_and_checksum_witness :
  (forall i, scan hello_out (List.length hello_out - 276) = Ok (Some (Z.of_nat i)) ->
     exists h, deserializeHeader (sub hello_out i 276) = Ok h /\
       magic h = MAGIC_SIGNATURE /\ checksum h = calculateChecksum h)
  /\ (forall i h, deserializeHeader (sub hello_out i 276) = Ok h ->
        magic h = MAGIC_SIGNATURE -> checksum h <> calculateChecksum h ->
        scan hello_out (List.length hello_out - 276) <> Ok (Some (Z.of_nat i))).
Proof. apply (scan_requires_magic_and_checksum hello_out). concrete_hyp. Defined.

(** Claim C10 at the spec's example. *)
Lemma size_no_room_unreachable_witness :
  hideFile fs_hello pad0 "dir/hello.txt" "cover.bin" "out" <> Err SizeNoRoom
  /\ (forall s h, MIN_HOST_SIZE <= h < 2 ^ 64 ->
        sizeof_StegoHeader <= maxHiddenBase h
        /\ validateAndCalculateMaxSize s h <> Err SizeNoRoom).
Proof.
  apply (size_no_room_unreachable fs_hello pad0 "dir/hello.txt" "cover.bin" "out").
  intros d Hd. change (fs_hello "cover.bin"%string) with (Some (zeros 20000)) in Hd.
  injection Hd as <-. concrete_hyp.
Defined.

(** [generateOutputFilename] with the user path "out" and the name
    "photo.JPG": the path "out.jpg", kept as it is when passed back. *)
Lemma generateOutputFilename_stable_witness :
  let out := generateOutputFilename "out" "photo.JPG" in
  hasExtension out = true /\ forall orig, generateOutputFilename out orig = out.
Proof. apply (generateOutputFilename_stable "out" "photo" "JPG"); concrete_hyp. Defined.

(** The header round trip on a header not built by [createHeader]. *)
Lemma serialize_deserialize_header_witness :
  deserializeHeader (serializeHeader pad0 (mkStegoHeader 1 2 3 4 (zeros 256) 5))
  = Ok (mkStegoHeader 1 2 3 4 (zeros 256) 5).
Proof.
  apply (serialize_deserialize_header pad0 (mkStegoHeader 1 2 3 4 (zeros 256) 5)).
  - unfold header_in_range. cbn. lia.
  - vm_refl.
Defined.

(** The window round trip on the buffer 0, 1, 2, ... *)
Lemma deserialize_serialize_window_witness :
  exists h, deserializeHeader counting_window = Ok h
    /\ serializeHeader (fun i => nth (Z.to_nat i) counting_window Byte.x00) h = counting_window.
Proof. apply (deserialize_serialize_window counting_window). vm_refl. Defined.

(** Byte 7 of the name array of the header built for "a" lies after the
    one byte the checksum reads. *)
Lemma checksum_ignores_name_tail_witness :
  let h := createHeader "a" 0 in
  let h' := mkStegoHeader (magic h) (version h) (hiddenFileSize h) (filenameLength h)
              (list_set (filename h) 7 "A"%byte) (checksum h) in
  calculateChecksum h' = calculateChecksum h /\ validate h' = validate h.
Proof.
  apply (checksum_ignores_name_tail (createHeader "a" 0) 7 "A"%byte).
  split; [apply Nat.leb_le | apply Nat.ltb_lt]; vm_compute; reflexivity.
Defined.

(** The spec's example: the 5-byte size is stored as it is and the whole
    payload comes back. *)
Lemma embed_size_field_mod_2_32_witness :
  let L := Z.of_nat (List.length (list_byte_of_string "hello")) in
  hiddenFileSize (createHeader "dir/hello.txt" L) = L mod 2 ^ 32
  /\ extractData hello_out "res"
     = Ok (createHeader "dir/hello.txt" L,
           generateOutputFilename "res" (substring 0 255 (extractFilename "dir/hello.txt")),
           firstn (Z.to_nat (L mod 2 ^ 32)) (list_byte_of_string "hello")).
Proof.
  refine (embed_size_field_mod_2_32 fs_hello pad0 "dir/hello.txt" "cover.bin" "out" "res"
            "out.bin" hello_out (zeros 20000) (list_byte_of_string "hello") _ _ _ _ _ _);
    concrete_hyp.
Defined.

(** Two bytes put in front of the output of the spec's example. *)
Lemma extract_ignores_prefix_witness :
  extractData ([Byte.x01; Byte.x02] ++ hello_out) "res" = extractData hello_out "res".
Proof.
  apply (extract_ignores_prefix [Byte.x01; Byte.x02] hello_out "res" 20000); concrete_hyp.
Defined.

(** The spec's example through [main]: [encode cover.bin dir/hello.txt out]
    writes "out.bin", and [decode out.bin res] writes "hello" to "res.txt". *)
Lemma main_encode_decode_roundtrip_witness :
  let r1 := main fs_hello (fun _ => true) pad0
              ["stego"; "encode"; "cover.bin"; "dir/hello.txt"; "out"]%string in
  let r2 := main (snd r1) (fun _ => true) pad0 ["stego"; "decode"; "out.bin"; "res"]%string in
  fst r1 = 0 /\ fst r2 = 0 /\ snd r2 "res.txt"%string = Some (list_byte_of_string "hello").
Proof.
  refine (main_encode_decode_roundtrip fs_hello (fun _ => true) pad0 "stego" "cover.bin"
            "dir/hello.txt" "out" "res" (zeros 20000) (list_byte_of_string "hello")
            _ _ _ _ _ _ _ _ _ _ _ _); concrete_hyp.
Defined.
